(** * siro-scraper: the FDA guidance-document pipeline

    A shallow embedding of [fda_optimized.py] (crawl, extract, dedupe,
    download) and [fda_retry_failed.py] (reconciliation and targeted retry),
    with the properties stated in the specification.

    Conventions.
    - A Python [str] is a sequence of Unicode code points: [list N].
    - The rendering engine and the transport client are external; the values
      they hand back are inputs of the model, and an operation that may raise
      returns [exn].
    - The output directory is a finite map from file names to sizes; the
      number of fetches issued so far is part of the state. *)

From Stdlib Require Import NArith Lia DecimalN.
From stdpp Require Import gmap strings list.

Local Open Scope N_scope.

(** ** Python strings *)

Abbreviation str := (list N).

(** A literal: the code points of an ASCII string. *)
Definition py (s : string) : str :=
  (λ a, Ascii.N_of_ascii a) <$> String.list_ascii_of_string s.

(** Truthiness of a string: non-empty. *)
Definition truthy (s : str) : bool :=
  match s with [] => false | _ => true end.

(** [a or b] on strings. *)
Definition py_or (a b : str) : str := if truthy a then a else b.

Definition str_eqb (a b : str) : bool := bool_decide (a = b).

(** [str.isspace] on one code point, which is also what [\s] matches in a
    [str] pattern: U+0009-000D, U+001C-0020, U+0085, U+00A0, U+1680,
    U+2000-200A, U+2028, U+2029, U+202F, U+205F, U+3000. *)
Definition isspace (c : N) : bool :=
  ((9 <=? c) && (c <=? 13)) || ((28 <=? c) && (c <=? 32))
  || (c =? 133) || (c =? 160) || (c =? 5760)
  || ((8192 <=? c) && (c <=? 8202))
  || (c =? 8232) || (c =? 8233) || (c =? 8239) || (c =? 8287)
  || (c =? 12288).

Fixpoint lstrip (s : str) : str :=
  match s with
  | [] => []
  | c :: s' => if isspace c then lstrip s' else s
  end.

Fixpoint rstrip (s : str) : str :=
  match s with
  | [] => []
  | c :: s' =>
      match rstrip s' with
      | [] => if isspace c then [] else [c]
      | r => c :: r
      end
  end.

(** [s.strip()] *)
Definition strip (s : str) : str := rstrip (lstrip s).

(** [s.startswith(p)] *)
Fixpoint startswith (s p : str) : bool :=
  match p, s with
  | [], _ => true
  | _ :: _, [] => false
  | a :: p', b :: s' => (a =? b) && startswith s' p'
  end.

(** [needle in hay] *)
Fixpoint contains (needle hay : str) : bool :=
  startswith hay needle
  || match hay with [] => false | _ :: hay' => contains needle hay' end.

(** [re.sub(r'[class]+', r, s)] for a one-character replacement: every
    maximal run of characters of the class becomes one [r].  [in_run] says
    that the previous character belonged to the run being replaced. *)
Fixpoint re_sub_runs_from (cls : N → bool) (r : N) (in_run : bool) (s : str)
  : str :=
  match s with
  | [] => []
  | c :: s' =>
      if cls c then
        if in_run then re_sub_runs_from cls r true s'
        else r :: re_sub_runs_from cls r true s'
      else c :: re_sub_runs_from cls r false s'
  end.

Definition re_sub_runs (cls : N → bool) (r : N) (s : str) : str :=
  re_sub_runs_from cls r false s.

(** ** [sanitize_filename] (both scripts carry the same definition) *)

(** The character class of the first substitution: less-than, greater-than,
    colon, double quote, slash, backslash, bar, question mark, star. *)
Definition forbidden (c : N) : bool :=
  (c =? 60) || (c =? 62) || (c =? 58) || (c =? 34) || (c =? 47)
  || (c =? 92) || (c =? 124) || (c =? 63) || (c =? 42).

Definition underscore : N := 95.
Definition space : N := 32.

Definition DEFAULT_NAME : str := py "file".

Definition sanitize_filename (name default : str) : str :=
  let name := if truthy name then strip name else default in
  let name := re_sub_runs forbidden underscore name in
  let name := re_sub_runs isspace space name in
  py_or (strip (take 150 name)) default.

(** Every whitespace character is a plain space and is not followed by
    another whitespace character. *)
Fixpoint ws_collapsed (s : str) : bool :=
  match s with
  | [] => true
  | c :: s' =>
      (if isspace c
       then (c =? space)
            && match s' with [] => true | d :: _ => negb (isspace d) end
       else true)
      && ws_collapsed s'
  end.


(** ** Unicode tables

    Two pieces of the interpreter's Unicode database are used by the scripts
    and are not part of the repository: the decimal-digit class matched by
    [\d] and the case mapping of [str.lower].  They are an interface here;
    the one fact used about them is that the ASCII digits are decimal. *)
Class Unicode := {
  is_decimal : N → bool;
  lower : str → str;
  is_decimal_ascii : ∀ c, 48 ≤ c → c ≤ 57 → is_decimal c = true
}.

(** The ASCII part of the tables: digits 0-9, lowering of A-Z. *)
Definition ascii_is_decimal (c : N) : bool := (48 <=? c) && (c <=? 57).

Definition ascii_lower (s : str) : str :=
  (λ c, if (65 <=? c) && (c <=? 90) then c + 32 else c) <$> s.

Definition ascii_unicode : Unicode.
Proof.
  refine {| is_decimal := ascii_is_decimal; lower := ascii_lower |}.
  intros c H1 H2. unfold ascii_is_decimal.
  apply andb_true_intro. split; by apply N.leb_le.
Defined.

(** ** Number formatting *)

Fixpoint uint_chars (u : Decimal.uint) : str :=
  match u with
  | Decimal.Nil => []
  | Decimal.D0 u => 48 :: uint_chars u
  | Decimal.D1 u => 49 :: uint_chars u
  | Decimal.D2 u => 50 :: uint_chars u
  | Decimal.D3 u => 51 :: uint_chars u
  | Decimal.D4 u => 52 :: uint_chars u
  | Decimal.D5 u => 53 :: uint_chars u
  | Decimal.D6 u => 54 :: uint_chars u
  | Decimal.D7 u => 55 :: uint_chars u
  | Decimal.D8 u => 56 :: uint_chars u
  | Decimal.D9 u => 57 :: uint_chars u
  end.

(** [str(n)] for a non-negative integer. *)
Definition decimal (n : N) : str := uint_chars (N.to_uint n).

(** [f"{n:04d}"]: decimal, padded with zeros on the left to width 4. *)
Definition format_04d (n : N) : str :=
  let d := decimal n in replicate (4 - length d)%nat 48 ++ d.

(** ** Catalog entries *)

Record entry := Entry {
  title : str;
  detail_url : str;
  download_url : str;
  date : str;
  center : str;
  topic : str;
  status : str;
  comment : str
}.

Definition blank_entry : entry := Entry [] [] [] [] [] [] [] [].

Definition set_title (v : str) (e : entry) : entry :=
  Entry v (detail_url e) (download_url e) (date e) (center e) (topic e)
        (status e) (comment e).
Definition set_detail_url (v : str) (e : entry) : entry :=
  Entry (title e) v (download_url e) (date e) (center e) (topic e)
        (status e) (comment e).
Definition set_download_url (v : str) (e : entry) : entry :=
  Entry (title e) (detail_url e) v (date e) (center e) (topic e)
        (status e) (comment e).
Definition set_date (v : str) (e : entry) : entry :=
  Entry (title e) (detail_url e) (download_url e) v (center e) (topic e)
        (status e) (comment e).
Definition set_status (v : str) (e : entry) : entry :=
  Entry (title e) (detail_url e) (download_url e) (date e) (center e)
        (topic e) v (comment e).
Definition set_comment (v : str) (e : entry) : entry :=
  Entry (title e) (detail_url e) (download_url e) (date e) (center e)
        (topic e) (status e) v.

(** ** Exceptions *)

Inductive exn (A : Type) : Type :=
| Ok (a : A)
| Raise.
Arguments Ok {A} a.
Arguments Raise {A}.

#[global] Instance exn_ret : MRet exn := λ A a, Ok a.
#[global] Instance exn_bind : MBind exn := λ A B f m,
  match m with Ok a => f a | Raise => Raise end.

(** A loop whose body may raise: the first exception leaves the loop. *)
Fixpoint for_fold {A B : Type} (f : A → B → exn A) (xs : list B) (a : A)
  : exn A :=
  match xs with
  | [] => Ok a
  | x :: xs' => a' ← f a x; for_fold f xs' a'
  end.

(** ** Field extractor ([collect_table_rows_fast])

    What the rendering engine shows of a page.  Every query can raise (a
    stale element, a lost session), so every answer is an [exn]. *)

Record link := Link {
  link_href : exn (option str);   (* get_attribute("href"), None if absent *)
  link_text : exn str             (* .text *)
}.

Record row := Row {
  row_cells : exn (list (exn str));   (* find_elements(td), .text of each *)
  row_links : exn (list link)         (* find_elements(a) *)
}.

(** [driver.find_elements(By.CSS_SELECTOR, "#DataTables_Table_0 tbody tr")] *)
Definition driver : Type := exn (list row).

(** [s.split('\n')[0]] *)
Fixpoint first_line (s : str) : str :=
  match s with
  | [] => []
  | c :: s' => if c =? 10 then [] else c :: first_line s'
  end.

(** [\d{1,2}] followed by [k], with backtracking. *)
Definition digits_1_2 `{Unicode} (k : str → bool) (s : str) : bool :=
  match s with
  | d1 :: rest =>
      is_decimal d1
      && (match rest with
          | d2 :: rest2 => is_decimal d2 && k rest2
          | [] => false
          end
          || k rest)
  | [] => false
  end.

Definition slash_then (k : str → bool) (s : str) : bool :=
  match s with c :: rest => (c =? 47) && k rest | [] => false end.

Definition digits_4 `{Unicode} (s : str) : bool :=
  match s with
  | a :: b :: c :: d :: _ =>
      is_decimal a && is_decimal b && is_decimal c && is_decimal d
  | _ => false
  end.

(** [re.match(r'\d{1,2}/\d{1,2}/\d{4}', text)] *)
Definition date_match `{Unicode} (text : str) : bool :=
  digits_1_2 (slash_then (digits_1_2 (slash_then digits_4))) text.

(** [text in [a, b]] *)
Definition one_of (text : str) (options : list str) : bool :=
  existsb (str_eqb text) options.

Definition is_download_href (href : str) : bool :=
  contains (py "/media/") href && contains (py "/download") href.

Definition is_detail_href (href : str) : bool :=
  contains (py "/guidance/") href
  || contains (py "/regulatory-information/") href.

(** The body of the loop over the links of a row, on the values read. *)
Definition classify_link (e : entry) (href text : str) : entry :=
  if is_download_href href then set_download_url href e
  else if is_detail_href href then
    if negb (truthy (title e)) && truthy text
    then set_detail_url href (set_title text e)
    else e
  else if contains (py "fda.gov") href && truthy text
          && negb (truthy (title e))
  then set_detail_url href (set_title text e)
  else e.

Definition scan_link (e : entry) (l : link) : exn entry :=
  h ← link_href l;
  let href := py_or (default [] h) [] in
  t ← link_text l;
  Ok (classify_link e href (strip t)).

(** The body of the loop over the cells of a row, on the text read. *)
Definition classify_cell `{Unicode} (e : entry) (text : str) : entry :=
  if date_match text && negb (truthy (date e)) then set_date text e
  else if one_of text [py "Final"; py "Draft"] && negb (truthy (status e))
  then set_status text e
  else if one_of text [py "Yes"; py "No"] && negb (truthy (comment e))
  then set_comment text e
  else e.

Definition scan_cell `{Unicode} (e : entry) (cell : exn str) : exn entry :=
  t ← cell; Ok (classify_cell e (strip t)).

(** The body of the loop over the rows, up to the test that decides whether
    the entry is appended: [None] stands for [continue]. *)
Definition extract_row `{Unicode} (r : row) : exn (option entry) :=
  cells ← row_cells r;
  if (length cells <? 2)%nat then Ok None else
  all_links ← row_links r;
  e ← for_fold scan_link all_links blank_entry;
  e ← (if negb (truthy (title e)) then
         match cells !! 1%nat with
         | Some cell => t ← cell; Ok (set_title (first_line (strip t)) e)
         | None => Ok (set_title [] e)
         end
       else Ok e);
  e ← for_fold scan_cell cells e;
  Ok (if truthy (title e) then Some e else None).

(** Statements that grow the local list [entries] and may raise. *)
Definition collector (A : Type) : Type := list entry → list entry * exn A.

Definition pass : collector () := λ entries, (entries, Ok ()).

Definition try_except {A} (body handler : collector A) : collector A :=
  λ entries,
    match body entries with
    | (entries', Raise) => handler entries'
    | done => done
    end.

Definition seq_ {A B} (m : collector A) (f : A → collector B) : collector B :=
  λ entries,
    match m entries with
    | (entries', Ok a) => f a entries'
    | (entries', Raise) => (entries', Raise)
    end.

Definition find_rows (drv : driver) : collector (list row) :=
  λ entries, (entries, drv).

Definition row_body `{Unicode} (r : row) : collector () :=
  λ entries,
    match extract_row r with
    | Ok (Some e) => (entries ++ [e], Ok ())
    | Ok None => (entries, Ok ())
    | Raise => (entries, Raise)
    end.

Fixpoint for_rows (body : row → collector ()) (rows : list row)
  : collector () :=
  match rows with
  | [] => pass
  | r :: rows' => seq_ (body r) (λ _, for_rows body rows')
  end.

Definition collect_table_rows_fast `{Unicode} (drv : driver)
  : exn (list entry) :=
  let statement :=
    try_except
      (seq_ (find_rows drv)
            (for_rows (λ r, try_except (row_body r) pass)))
      pass in
  let '(entries, outcome) := statement [] in
  _ ← outcome; Ok entries.

(** ** Deduplicator (the filter loop of [main]) *)

Record run_state := RunState {
  all_entries : list entry;
  seen_titles : gset str
}.

(** [f"{entry['title']}|{entry.get('date', '')}"] *)
Definition dedupe_key (e : entry) : str := title e ++ py "|" ++ date e.

(** One iteration of the filter loop; the boolean says whether the entry
    was new. *)
Definition observe (st : run_state) (e : entry) : run_state * bool :=
  let key := dedupe_key e in
  if decide (key ∈ seen_titles st) then (st, false)
  else (RunState (all_entries st ++ [e]) ({[key]} ∪ seen_titles st), true).

(** The whole filter loop over the entries of a page: the state after it
    and [new_entries]. *)
Fixpoint filter_new (st : run_state) (entries : list entry)
  : run_state * list entry :=
  match entries with
  | [] => (st, [])
  | e :: rest =>
      let '(st1, fresh) := observe st e in
      let '(st2, new_entries) := filter_new st1 rest in
      (st2, if fresh then e :: new_entries else new_entries)
  end.

(** ** The output directory and the transport client *)

(** The files of the output directory with their sizes, and the number of
    [session.get] calls made so far. *)
Record world := World {
  files : gmap str N;
  fetches : N
}.

(** What one [session.get] and the reading of its body come to. *)
Inductive response :=
| Replied (status_code : N) (body : N)
    (* a response arrives; its body streams [body] bytes *)
| Interrupted (status_code : N) (written : N) (msg : str)
    (* a response arrives; reading the body raises after [written] bytes *)
| NoReply (msg : str).
    (* the request itself raises: timeout, connection error *)

(** The transport client: the answer to a URL, given how many requests were
    made before. *)
Definition transport : Type := str → N → response.

Definition MIN_SIZE : N := 1000.

(** [filepath.exists() and filepath.stat().st_size > 1000] *)
Definition valid_file (w : world) (filename : str) : bool :=
  match files w !! filename with
  | Some size => MIN_SIZE <? size
  | None => false
  end.

(** [open(filepath, "wb")] followed by writing [size] bytes. *)
Definition write_file (filename : str) (size : N) (w : world) : world :=
  World (<[filename := size]> (files w)) (fetches w).

(** [filepath.unlink(missing_ok=True)] *)
Definition unlink (filename : str) (w : world) : world :=
  World (delete filename (files w)) (fetches w).

Definition count_fetch (w : world) : world :=
  World (files w) (fetches w + 1).

(** [url = f"https://www.fda.gov{url}"] for a URL that starts with a slash *)
Definition absolute_url (url : str) : str :=
  if startswith url (py "/") then py "https://www.fda.gov" ++ url else url.

(** [f"{index:04d}_{sanitize_filename(title)}.pdf"] *)
Definition target_filename (index : N) (title : str) : str :=
  format_04d index ++ py "_" ++ sanitize_filename title DEFAULT_NAME
  ++ py ".pdf".

(** A result [(success, message)]. *)
Abbreviation result := (bool * str)%type.

(** ** Bulk downloader ([download_file_with_session]) *)

(** How one pass through the body of the retry loop ends. *)
Inductive attempt_end :=
| Returned (r : result)       (* a return statement inside the try *)
| NextAttempt                 (* continue, or the end of the body *)
| RaisedHTTPError (code : N)  (* raise_for_status *)
| RaisedOther (msg : str).    (* any other exception *)

(** [r.raise_for_status()] raises for 4xx and 5xx. *)
Definition is_error_status (code : N) : bool := (400 <=? code) && (code <? 600).

(** [r.status_code in [200, 301, 302]] *)
Definition accepted_status (code : N) : bool :=
  (code =? 200) || (code =? 301) || (code =? 302).

(** The statements inside the try of one attempt. *)
Definition try_fetch (net : transport) (url filename : str) (w : world)
  : world * attempt_end :=
  let reply := net url (fetches w) in
  let w := count_fetch w in
  match reply with
  | NoReply msg => (w, RaisedOther msg)
  | Replied code body =>
      if accepted_status code then
        let w := write_file filename body w in
        if valid_file w filename then (w, Returned (true, filename))
        else (unlink filename w, NextAttempt)
      else if is_error_status code then (w, RaisedHTTPError code)
      else (w, NextAttempt)
  | Interrupted code written msg =>
      if accepted_status code then
        (write_file filename written w, RaisedOther msg)
      else if is_error_status code then (w, RaisedHTTPError code)
      else (w, NextAttempt)
  end.

(** The final check made before a failure is returned. *)
Definition final_check (w : world) (filename : str) (failure : str)
  : world * result :=
  if valid_file w filename then (w, (true, filename))
  else (w, (false, failure)).

(** [for attempt in attempts: ...] and the statements after the loop. *)
Fixpoint retry_loop (net : transport) (url filename : str)
    (attempts : list N) (w : world) : world * result :=
  match attempts with
  | [] => final_check w filename (py "Failed")
  | attempt :: rest =>
      match try_fetch net url filename w with
      | (w', Returned r) => (w', r)
      | (w', NextAttempt) => retry_loop net url filename rest w'
      | (w', RaisedHTTPError code) =>
          if attempt <? 2 then retry_loop net url filename rest w'
          else final_check w' filename (py "HTTP " ++ decimal code)
      | (w', RaisedOther msg) =>
          if attempt <? 2 then retry_loop net url filename rest w'
          else final_check w' filename (take 30 msg)
      end
  end.

Definition download_file_with_session (net : transport) (e : entry)
    (index : N) (w : world) : world * result :=
  let url := download_url e in
  if negb (truthy url) then (w, (false, py "No URL")) else
  let url := absolute_url url in
  let filename := target_filename index (title e) in
  if valid_file w filename then (w, (true, py "Exists"))
  else retry_loop net url filename [0; 1; 2] w.

(** ** Download orchestrator ([download_batch_parallel]) *)

Record results := Results {
  downloaded : N;
  skipped : N;
  failed : N
}.

(** A submitted task once it has run: the value kept in [future_to_entry]
    and what [future.result()] gives, a result or an exception. *)
Record future := Future {
  fut_idx : N;
  fut_title : str;
  fut_outcome : exn result
}.

(** What the pool runs for a task. *)
Definition worker : Type := entry → N → world → world * exn result.

Definition session_worker (net : transport) : worker :=
  λ e index w,
    let '(w', r) := download_file_with_session net e index w in (w', Ok r).

(** The submission loop, from position [i] of the enumeration on: the
    futures in submission order and the entries skipped for want of a URL.
    The workers take effect on the directory in submission order. *)
Fixpoint submit_all (run : worker) (start_index : N) (i : N)
    (entries : list entry) (w : world) : world * list future * N :=
  match entries with
  | [] => (w, [], 0)
  | e :: rest =>
      let idx := start_index + i in
      if truthy (download_url e) then
        let '(w1, outcome) := run e idx w in
        let '(w2, futures, nskip) := submit_all run start_index (i + 1) rest w1 in
        (w2, Future idx (take 40 (title e)) outcome :: futures, nskip)
      else
        let '(w2, futures, nskip) := submit_all run start_index (i + 1) rest w in
        (w2, futures, nskip + 1)
  end.

(** The body of the loop over the completed futures. *)
Definition account (res : results) (f : future) : results :=
  match fut_outcome f with
  | Ok (true, message) =>
      if str_eqb message (py "Exists")
      then Results (downloaded res) (skipped res + 1) (failed res)
      else Results (downloaded res + 1) (skipped res) (failed res)
  | Ok (false, _) => Results (downloaded res) (skipped res) (failed res + 1)
  | Raise => Results (downloaded res) (skipped res) (failed res + 1)
  end.

(** [as_completed] yields the futures in an order of its own choosing. *)
Definition completion : Type := list future → list future.

Definition download_batch_parallel (run : worker) (as_completed : completion)
    (entries : list entry) (start_index : N) (w : world) : world * results :=
  let '(w', futures, nskip) := submit_all run start_index 0 entries w in
  (w', foldl account (Results 0 nskip 0) (as_completed futures)).

(** ** The page loop of [main] *)

Definition ITEMS_PER_PAGE : N := 10.

(** [start_idx = (page_num - 1) * ITEMS_PER_PAGE + 1]; pages are numbered
    from 1. *)
Definition page_start_idx (page_num : N) : N :=
  (page_num - 1) * ITEMS_PER_PAGE + 1.

(** The tasks a batch submits: the index and the entry of every entry that
    has a download URL. *)
Fixpoint batch_tasks (start_index : N) (i : N) (entries : list entry)
  : list (N * entry) :=
  match entries with
  | [] => []
  | e :: rest =>
      if truthy (download_url e)
      then (start_index + i, e) :: batch_tasks start_index (i + 1) rest
      else batch_tasks start_index (i + 1) rest
  end.

(** One page of the scrape loop, after the rows were collected: filter the
    new entries and download them as one batch. *)
Definition scrape_page (run : worker) (as_completed : completion)
    (no_download : bool) (page_num : N) (entries : list entry)
    (st : run_state) (w : world) : run_state * world * option results :=
  let '(st', new_entries) := filter_new st entries in
  if negb no_download && bool_decide (new_entries ≠ []) then
    let '(w', res) :=
      download_batch_parallel run as_completed new_entries
        (page_start_idx page_num) w in
    (st', w', Some res)
  else (st', w, None).

(** The download phase over a set of tasks, one task after the other. *)
Fixpoint download_phase (net : transport) (tasks : list (N * entry))
    (w : world) : world * list result :=
  match tasks with
  | [] => (w, [])
  | (index, e) :: rest =>
      let '(w1, r) := download_file_with_session net e index w in
      let '(w2, rs) := download_phase net rest w1 in
      (w2, r :: rs)
  end.

(** ** Reconciliation scanner ([fda_retry_failed.py]) *)

(** [s.endswith(suffix)] *)
Definition endswith (s suffix : str) : bool :=
  startswith (reverse s) (reverse suffix).

(** [Path.stem] of a file name: the name without its last suffix, a suffix
    being a dot that is neither first nor last, and what follows it. *)
Fixpoint rfind_dot (s : str) (i : nat) : option nat :=
  match s with
  | [] => None
  | c :: s' =>
      match rfind_dot s' (S i) with
      | Some j => Some j
      | None => if c =? 46 then Some i else None
      end
  end.

Definition stem (name : str) : str :=
  match rfind_dot name 0 with
  | Some i =>
      if ((0 <? i) && (i <? length name - 1))%nat then take i name else name
  | None => name
  end.

(** [re.match(r'^\d{4}_', name)] *)
Definition has_index_prefix `{Unicode} (name : str) : bool :=
  match name with
  | a :: b :: c :: d :: u :: _ =>
      is_decimal a && is_decimal b && is_decimal c && is_decimal d
      && (u =? underscore)
  | _ => false
  end.

(** The body of the loop over the PDF files of the folder. *)
Definition scanned_title `{Unicode} (filename : str) : str :=
  let name := stem filename in
  let name := if has_index_prefix name then drop 5 name else name in
  strip (lower name).

(** [folder] is the listing of the directory, [None] if it does not exist;
    [folder.glob("*.pdf")] keeps the names that end in [.pdf]. *)
Definition scan_existing_files `{Unicode} (folder : option (list str))
  : gset str :=
  match folder with
  | None => ∅
  | Some names =>
      list_to_set
        (scanned_title <$> filter (λ n, endswith n (py ".pdf") = true) names)
  end.

Definition title_exists `{Unicode} (title : str) (existing_titles : gset str)
  : bool :=
  let sanitized := strip (lower (sanitize_filename title DEFAULT_NAME)) in
  if decide (sanitized ∈ existing_titles) then true
  else
    let sanitized_short := take 50 sanitized in
    existsb
      (λ existing,
         startswith existing sanitized_short
         || startswith sanitized_short (take 50 existing))
      (elements existing_titles).

(** ** Targeted retry ([download_file] of [fda_retry_failed.py]) *)

(** One pass through the body of the retry loop: [inl] is a return
    statement, [inr] goes on to the next attempt. *)
Definition retry_attempt (net : transport) (url filename : str) (attempt : N)
    (w : world) : world * (result + unit) :=
  let reply := net url (fetches w) in
  let w := count_fetch w in
  let on_exception (w : world) (msg : str) : world * (result + unit) :=
    if attempt =? 0 then (w, inr ()) else (w, inl (false, take 25 msg)) in
  let on_status (code : N) : world * (result + unit) :=
    if code =? 404 then (w, inl (false, py "404 - PDF removed from FDA"))
    else if attempt =? 0 then (w, inr ())
    else (w, inl (false, py "HTTP " ++ decimal code)) in
  match reply with
  | NoReply msg => on_exception w msg
  | Replied code body =>
      if code =? 200 then
        let w := write_file filename body w in
        if valid_file w filename then (w, inl (true, filename))
        else (unlink filename w, inr ())
      else on_status code
  | Interrupted code written msg =>
      if code =? 200 then on_exception (write_file filename written w) msg
      else on_status code
  end.

Fixpoint retry_attempts (net : transport) (url filename : str)
    (attempts : list N) (w : world) : world * result :=
  match attempts with
  | [] => (w, (false, py "Failed"))
  | attempt :: rest =>
      match retry_attempt net url filename attempt w with
      | (w', inl r) => (w', r)
      | (w', inr _) => retry_attempts net url filename rest w'
      end
  end.

Definition download_file (net : transport) (e : entry) (index : N)
    (w : world) : world * result :=
  let url := download_url e in
  if negb (truthy url) then (w, (false, py "No URL")) else
  let url := absolute_url url in
  let filename := target_filename index (title e) in
  if valid_file w filename then (w, (true, py "Exists"))
  else retry_attempts net url filename [0; 1] w.

(** ** Vocabulary of the statements

    Auxiliary notions that the properties below are stated with, and
    the sample inputs of the examples. *)

(** The string is empty or begins with a character that is not whitespace. *)
Definition starts_nonspace (s : str) : Prop :=
  match s with [] => True | d :: _ => isspace d = false end.

(** [all_entries = []] and [seen_titles = set()] at the start of [main]. *)
Definition initial_state : run_state := RunState [] ∅.

(** The keys of the collected entries are pairwise different and all seen. *)
Definition collection_ok (st : run_state) : Prop :=
  NoDup (dedupe_key <$> all_entries st)
  ∧ ∀ e, e ∈ all_entries st → dedupe_key e ∈ seen_titles st.

(** A link whose attribute and text can be read. *)
Definition readable_link (l : str * str) : link :=
  Link (Ok (Some l.1)) (Ok l.2).

(** A row whose cells and links can all be read. *)
Definition readable_row (cells : list str) (links : list (str * str)) : row :=
  Row (Ok (Ok <$> cells)) (Ok (readable_link <$> links)).

(** A link that can give the title: not a download reference, of the
    detail class or an FDA link, with text left after stripping. *)
Definition title_candidate (l : str * str) : bool :=
  negb (is_download_href l.1)
  && (is_detail_href l.1 || contains (py "fda.gov") l.1)
  && truthy (strip l.2).

(** The two scanning loops on values that were read without an exception. *)
Definition scan_links_pure (e : entry) (links : list (str * str)) : entry :=
  foldl (λ e l, classify_link e l.1 (strip l.2)) e links.

Definition scan_cells_pure `{Unicode} (e : entry) (cells : list str) : entry :=
  foldl (λ e t, classify_cell e (strip t)) e cells.

(** What a row contributes: its entry, or nothing when the row is skipped
    or a query on it raises. *)
Definition row_entry `{Unicode} (r : row) : option entry :=
  match extract_row r with Ok o => o | Raise => None end.

(** The three counters of a batch. *)
Inductive counter := Downloaded | Skipped | Failed.

#[global] Instance counter_eq_dec : EqDecision counter.
Proof. solve_decision. Defined.

(** The counter a completed task is charged to. *)
Definition verdict (f : future) : counter :=
  match fut_outcome f with
  | Ok (true, message) =>
      if str_eqb message (py "Exists") then Skipped else Downloaded
  | Ok (false, _) => Failed
  | Raise => Failed
  end.

(** How many of the futures are charged to a counter. *)
Definition charged (c : counter) (futures : list future) : N :=
  N.of_nat (length (filter (λ f, verdict f = c) futures)).

(** How many of the entries have no download URL. *)
Definition without_url (entries : list entry) : N :=
  N.of_nat (length (filter (λ e, truthy (download_url e) = false) entries)).

(** A transport that serves a large body for one URL and 404 otherwise. *)
Definition net_one_good (good : str) : transport :=
  λ url _, if str_eqb url good then Replied 200 5000 else Replied 404 0.

(** The status code of a reply, if a response arrived. *)
Definition status_of (r : response) : option N :=
  match r with
  | Replied code _ => Some code
  | Interrupted code _ _ => Some code
  | NoReply _ => None
  end.

Definition NOT_FOUND_MESSAGE : str := py "404 - PDF removed from FDA".

(** A transport that answers every request with the same status. *)
Definition net_status (code : N) : transport := λ _ _, Replied code 0.

Definition sample_entry : entry :=
  Entry (py "Doc") [] (py "/media/1/download") [] [] [] [] [].

(** A transport that answers from a script, by the number of the request. *)
Definition net_script (replies : list response) : transport :=
  λ _ n, default (NoReply (py "timed out")) (replies !! N.to_nat n).

(** The marker of a file that was already there. *)
Definition EXISTS : str := py "Exists".

Definition sample_tasks : list (N * entry) :=
  [(1, sample_entry);
   (2, Entry (py "Other: doc") [] (py "https://www.fda.gov/media/2/download")
         [] [] [] [] [])].

(** Running the workers over a list of tasks, in order. *)
Fixpoint run_tasks (run : worker) (tasks : list (N * entry)) (w : world)
  : world * list future :=
  match tasks with
  | [] => (w, [])
  | (idx, e) :: rest =>
      let '(w1, outcome) := run e idx w in
      let '(w2, futures) := run_tasks run rest w1 in
      (w2, Future idx (take 40 (title e)) outcome :: futures)
  end.

(** Exactly four characters, each one of 0-9. *)
Definition four_ascii_digits (s : str) : bool :=
  match s with
  | [a; b; c; d] =>
      ascii_is_decimal a && ascii_is_decimal b && ascii_is_decimal c
      && ascii_is_decimal d
  | _ => false
  end.

(** ** The rendering engine as [fda_optimized.py] drives it

    The pagination controls.  Each operation stands for the lookup of a
    control and the action on it inside one try block: it gives the state
    of the engine afterwards and whether the block ended without an
    exception. *)
Record engine (S : Type) := Engine {
  enter_page : N → S → S * bool;       (* the page-number input control *)
  click_page_link : N → S → S * bool;  (* the link with data-dt-idx *)
  click_first : S → S * bool;          (* .first:not(.disabled) *)
  click_next : S → S * bool;           (* .next:not(.disabled) *)
  rows : S → driver                    (* the rows of the table *)
}.
Arguments enter_page {S}.
Arguments click_page_link {S}.
Arguments click_first {S}.
Arguments click_next {S}.
Arguments rows {S}.

(** The loop [for i in range(n)] of [navigate_sequential_fast]: a click
    that fails returns [False] at once. *)
Fixpoint click_next_times {S} (eng : engine S) (n : nat) (s : S) : S * bool :=
  match n with
  | O => (s, true)
  | Datatypes.S n' =>
      let '(s', ok) := click_next eng s in
      if ok then click_next_times eng n' s' else (s', false)
  end.

Definition navigate_sequential_fast {S} (eng : engine S) (target_page : N)
    (s : S) : S * bool :=
  let '(s, _) := click_first eng s in
  click_next_times eng (N.to_nat (target_page - 1)) s.

Definition navigate_to_page_direct {S} (eng : engine S) (page_num : N)
    (s : S) : S * bool :=
  let '(s, ok) := enter_page eng page_num s in
  if ok then (s, true) else
  let '(s, ok) := click_page_link eng page_num s in
  if ok then (s, true) else
  navigate_sequential_fast eng page_num s.

Definition click_next_fast {S} (eng : engine S) (s : S) : S * bool :=
  click_next eng s.

(** ** [save_to_csv] and the scrape loop of [main] *)

Definition CSV_HEADER : list str :=
  [py "index"; py "title"; py "detail_url"; py "download_url"; py "date";
   py "center"; py "topic"; py "status"; py "comment"].

(** The row [{"index": idx, **entry}] in the order of the field names. *)
Definition csv_row (idx : N) (e : entry) : list str :=
  [decimal idx; title e; detail_url e; download_url e; date e; center e;
   topic e; status e; comment e].

(** The rows handed to the CSV writer, the header first. *)
Definition save_to_csv (entries : list entry) : list (list str) :=
  CSV_HEADER :: imap (λ i e, csv_row (N.of_nat i + 1) e) entries.

Definition TOTAL_PAGES : N := 280.

(** [start_page = max(1, start_page)], [end_page = min(TOTAL_PAGES,
    end_page)], and the rejection of an empty range. *)
Definition validate_range (start_page end_page : Z) : option (N * N) :=
  let start_page := Z.max 1 start_page in
  let end_page := Z.min (Z.of_N TOTAL_PAGES) end_page in
  if (end_page <? start_page)%Z then None
  else Some (Z.to_N start_page, Z.to_N end_page).

(** [range(start_page, end_page + 1)] *)
Definition page_range (start_page end_page : N) : list N :=
  (λ k, start_page + N.of_nat k) <$> seq 0 (N.to_nat (end_page + 1 - start_page)).

(** The variables of [main] that the loop changes, with the engine, the
    directory and the last snapshot written. *)
Record scrape_state (S : Type) := Scrape {
  browser : S;
  collected : run_state;
  disk : world;
  totals : results;
  snapshot : option (list (list str))
}.
Arguments Scrape {S}.
Arguments browser {S}.
Arguments collected {S}.
Arguments disk {S}.
Arguments totals {S}.
Arguments snapshot {S}.

Definition add_results (a b : results) : results :=
  Results (downloaded a + downloaded b) (skipped a + skipped b)
          (failed a + failed b).

(** [for page_num in pages: ...]; a failed click on next leaves the loop,
    an exception of the extractor leaves [main]. *)
Fixpoint scrape_loop `{Unicode} {S} (eng : engine S) (net : transport)
    (as_completed : completion) (no_download : bool) (start_page : N)
    (pages : list N) (st : scrape_state S) : exn (scrape_state S) :=
  match pages with
  | [] => Ok st
  | page_num :: rest =>
      let '(s, ok) :=
        if start_page <? page_num then click_next_fast eng (browser st)
        else (browser st, true) in
      if negb ok
      then Ok (Scrape s (collected st) (disk st) (totals st) (snapshot st))
      else
        entries ← collect_table_rows_fast (rows eng s);
        let '(run', w', res) :=
          scrape_page (session_worker net) as_completed no_download
            page_num entries (collected st) (disk st) in
        let totals' :=
          match res with
          | Some r => add_results (totals st) r
          | None => totals st
          end in
        let snapshot' :=
          if page_num mod 10 =? 0 then Some (save_to_csv (all_entries run'))
          else snapshot st in
        scrape_loop eng net as_completed no_download start_page rest
          (Scrape s run' w' totals' snapshot')
  end.

(** [main] from the navigation to the start page to the final save, for a
    validated range. *)
Definition main_scrape `{Unicode} {S} (eng : engine S) (net : transport)
    (as_completed : completion) (no_download : bool)
    (start_page end_page : N) (s : S) (w : world) : exn (scrape_state S) :=
  let s := if 1 <? start_page
           then (navigate_sequential_fast eng start_page s).1 else s in
  st ← scrape_loop eng net as_completed no_download start_page
         (page_range start_page end_page)
         (Scrape s initial_state w (Results 0 0 0) None);
  Ok (Scrape (browser st) (collected st) (disk st) (totals st)
        (Some (save_to_csv (all_entries (collected st))))).

(** A table of [total] pages with the current page as its state: the
    first button is disabled on page 1 and the next button on the last
    page; there is no page input and no page link. *)
Definition simple_pager (total : N) (pages : N → driver) : engine N :=
  Engine N (λ _ s, (s, false)) (λ _ s, (s, false))
    (λ s, if s =? 1 then (s, false) else (1, true))
    (λ s, if s <? total then (s + 1, true) else (s, false))
    pages.

(** ** The extractor and the main loop of [fda_retry_failed.py] *)

(** The body of the loop over the links of a row in [collect_table_rows]:
    an entry of this script has a title and a download URL only. *)
Definition retry_classify_link (e : entry) (href text : str) : entry :=
  if is_download_href href then set_download_url href e
  else if truthy text && negb (truthy (title e)) then set_title text e
  else e.

Definition retry_scan_link (e : entry) (l : link) : exn entry :=
  h ← link_href l;
  let href := py_or (default [] h) [] in
  t ← link_text l;
  Ok (retry_classify_link e href (strip t)).

Definition retry_extract_row (r : row) : exn (option entry) :=
  all_links ← row_links r;
  e ← for_fold retry_scan_link all_links blank_entry;
  Ok (if truthy (title e) && truthy (download_url e) then Some e else None).

Definition retry_row_body (r : row) : collector () :=
  λ entries,
    match retry_extract_row r with
    | Ok (Some e) => (entries ++ [e], Ok ())
    | Ok None => (entries, Ok ())
    | Raise => (entries, Raise)
    end.

Definition collect_table_rows (drv : driver) : exn (list entry) :=
  let statement :=
    try_except
      (seq_ (find_rows drv)
            (for_rows (λ r, try_except (retry_row_body r) pass)))
      pass in
  let '(entries, outcome) := statement [] in
  _ ← outcome; Ok entries.

(** [click_next]: the same control as in the other script. *)
Definition click_next_retry {S} (eng : engine S) (s : S) : S * bool :=
  click_next eng s.

Definition SAFETY_LIMIT : N := 280.

(** What the scan of the catalog leaves in the variables of [main]. *)
Record scan_result (S : Type) := ScanResult {
  scan_browser : S;
  scan_page_num : N;
  missing_entries : list entry;
  total_checked : N
}.
Arguments ScanResult {S}.
Arguments scan_browser {S}.
Arguments scan_page_num {S}.
Arguments missing_entries {S}.
Arguments total_checked {S}.

(** The loop [while True] of the scan.  [fuel] bounds the number of
    iterations of the model; [None] says that it did not suffice. *)
Fixpoint scan_catalog `{Unicode} {S} (eng : engine S)
    (existing_titles : gset str) (fuel : nat) (acc : scan_result S)
  : exn (option (scan_result S)) :=
  match fuel with
  | O => Ok None
  | Datatypes.S fuel' =>
      let page_num := scan_page_num acc + 1 in
      entries ← collect_table_rows (rows eng (scan_browser acc));
      let page_missing :=
        filter (λ e, title_exists (title e) existing_titles = false) entries in
      let missing := missing_entries acc ++ page_missing in
      let checked := total_checked acc + N.of_nat (length entries) in
      let '(s, ok) := click_next_retry eng (scan_browser acc) in
      if negb ok then Ok (Some (ScanResult s page_num missing checked))
      else if SAFETY_LIMIT <=? page_num
      then Ok (Some (ScanResult s page_num missing checked))
      else scan_catalog eng existing_titles fuel'
             (ScanResult s page_num missing checked)
  end.

(** The counters and the state of the download loop of [main]. *)
Record retry_state (S : Type) := RetryState {
  retry_browser : S;
  retry_disk : world;
  retry_downloaded : N;
  retry_failed : N;
  refreshes : N
}.
Arguments RetryState {S}.
Arguments retry_browser {S}.
Arguments retry_disk {S}.
Arguments retry_downloaded {S}.
Arguments retry_failed {S}.
Arguments refreshes {S}.

(** One request of the download loop: the whole body is read before a
    file is opened, so a transfer that breaks writes nothing. *)
Definition fetch_whole (net : transport) (url filename : str) (w : world)
  : world * bool :=
  let reply := net url (fetches w) in
  let w := count_fetch w in
  match reply with
  | Replied code body =>
      if (code =? 200) && (MIN_SIZE <? body)
      then (write_file filename body w, true)
      else (w, false)
  | Interrupted _ _ _ => (w, false)
  | NoReply _ => (w, false)
  end.

(** The download loop of [main], from position [i] of the enumeration on.
    [refresh] reloads the page for new cookies; it is outside every try
    block, so its exception leaves [main]. *)
Fixpoint retry_downloads {S} (refresh : S → exn S) (net : transport)
    (start_index : N) (i : N) (missing : list entry) (st : retry_state S)
  : exn (retry_state S) :=
  match missing with
  | [] => Ok st
  | e :: rest =>
      let idx := start_index + i in
      let url := download_url e in
      if negb (truthy url) then
        retry_downloads refresh net start_index (i + 1) rest
          (RetryState (retry_browser st) (retry_disk st)
             (retry_downloaded st) (retry_failed st + 1) (refreshes st))
      else
        let url := absolute_url url in
        let filename := target_filename idx (title e) in
        if valid_file (retry_disk st) filename then
          retry_downloads refresh net start_index (i + 1) rest st
        else
          st ← (if (i mod 50 =? 0) && (0 <? i) then
                  s ← refresh (retry_browser st);
                  Ok (RetryState s (retry_disk st) (retry_downloaded st)
                        (retry_failed st) (refreshes st + 1))
                else Ok st);
          let '(w, saved) := fetch_whole net url filename (retry_disk st) in
          retry_downloads refresh net start_index (i + 1) rest
            (if saved
             then RetryState (retry_browser st) w (retry_downloaded st + 1)
                    (retry_failed st) (refreshes st)
             else RetryState (retry_browser st) w (retry_downloaded st)
                    (retry_failed st + 1) (refreshes st))
  end.

(** ** Further vocabulary *)

Definition results_sum (r : results) : N :=
  downloaded r + skipped r + failed r.

(** What the loop keeps true: the collection has no key twice, the totals
    count the collected entries when downloads are on, and the snapshot
    holds the rows of a prefix of the collection. *)
Definition scrape_ok {S} (no_download : bool) (st : scrape_state S) : Prop :=
  collection_ok (collected st)
  ∧ (no_download = false →
     results_sum (totals st) = N.of_nat (length (all_entries (collected st))))
  ∧ match snapshot st with
    | None => True
    | Some table =>
        ∃ saved, table = save_to_csv saved
                 ∧ saved `prefix_of` all_entries (collected st)
    end.

Definition retry_row_entry (r : row) : option entry :=
  match retry_extract_row r with Ok o => o | Raise => None end.

(** The download URL is empty or a download reference. *)
Definition url_ok (e : entry) : Prop :=
  download_url e = [] ∨ is_download_href (download_url e) = true.

(** The sanitized, lowered and stripped title that is compared. *)
Definition match_key `{Unicode} (title : str) : str :=
  strip (lower (sanitize_filename title DEFAULT_NAME)).

(** One existing title matches: it begins with the first 50 characters of
    the key, or the first 50 characters of the key begin with its own
    first 50 characters. *)
Definition fuzzy_match (key existing : str) : bool :=
  startswith existing (take 50 key)
  || startswith (take 50 key) (take 50 existing).

(** What holds of the entries found missing. *)
Definition missing_ok `{Unicode} (existing_titles : gset str) (e : entry)
  : Prop :=
  title_exists (title e) existing_titles = false
  ∧ title e ≠ []
  ∧ is_download_href (download_url e) = true.

(** The first text that satisfies a pattern, or the empty string. *)
Definition first_match (p : str → bool) (texts : list str) : str :=
  default [] (List.find p texts).

Definition is_status (text : str) : bool :=
  one_of text [py "Final"; py "Draft"].

Definition is_comment (text : str) : bool :=
  one_of text [py "Yes"; py "No"].

(** An answer that arrives whole, with an accepted status and a body of
    at most the minimum size. *)
Definition undersized_reply (r : response) : Prop :=
  ∃ code body,
    r = Replied code body ∧ accepted_status code = true ∧ body ≤ MIN_SIZE.



(** * Properties *)

(** ** Strings *)

Lemma lstrip_drop (s : str) : ∃ k, lstrip s = drop k s.
Proof.
  induction s as [|c s IH]; simpl.
  - by exists 0%nat.
  - destruct (isspace c).
    + destruct IH as [k ->]. by exists (S k).
    + by exists 0%nat.
Qed.

Lemma rstrip_take (s : str) : ∃ k, rstrip s = take k s.
Proof.
  induction s as [|c s IH]; simpl.
  - by exists 0%nat.
  - destruct IH as [k Hk]. destruct (rstrip s) as [|d r] eqn:E.
    + destruct (isspace c).
      * by exists 0%nat.
      * exists 1%nat. simpl. by rewrite take_0.
    + exists (S k). simpl. by rewrite <- Hk.
Qed.

Lemma strip_length (s : str) : (length (strip s) ≤ length s)%nat.
Proof.
  unfold strip. destruct (rstrip_take (lstrip s)) as [k ->].
  destruct (lstrip_drop s) as [j ->].
  rewrite length_take, length_drop. lia.
Qed.

Lemma strip_Forall (P : N → Prop) (s : str) : Forall P s → Forall P (strip s).
Proof.
  intros H. unfold strip. destruct (rstrip_take (lstrip s)) as [k ->].
  destruct (lstrip_drop s) as [j ->].
  by apply Forall_take, Forall_drop.
Qed.

Lemma re_sub_runs_from_class (cls : N → bool) (r : N) (b : bool) (s : str) :
  cls r = false → Forall (λ c, cls c = false) (re_sub_runs_from cls r b s).
Proof.
  intros Hr. revert b. induction s as [|c s IH]; intros b; simpl.
  - constructor.
  - destruct (cls c) eqn:E.
    + destruct b; [apply IH | constructor; [done | apply IH]].
    + constructor; [done | apply IH].
Qed.

Lemma re_sub_runs_from_Forall (P : N → Prop) cls (r : N) (b : bool) (s : str) :
  P r → Forall P s → Forall P (re_sub_runs_from cls r b s).
Proof.
  intros Hr Hs. revert b. induction Hs as [|c s Hc Hs IH]; intros b; simpl.
  - constructor.
  - destruct (cls c).
    + destruct b; [apply IH | constructor; [done | apply IH]].
    + constructor; [done | apply IH].
Qed.

(** ** Whitespace runs *)

Lemma ws_collapsed_sub_from (b : bool) (s : str) :
  ws_collapsed (re_sub_runs_from isspace space b s) = true
  ∧ (b = true → starts_nonspace (re_sub_runs_from isspace space b s)).
Proof.
  revert b. induction s as [|c s IH]; intros b; simpl.
  - done.
  - destruct (isspace c) eqn:E.
    + destruct b.
      * apply IH.
      * split; [|done]. simpl.
        destruct (IH true) as [H1 H2]. specialize (H2 eq_refl).
        rewrite H1. unfold starts_nonspace in H2.
        destruct (re_sub_runs_from isspace space true s); [done|].
        by rewrite H2.
    + split; [|by intros _]. simpl. rewrite E. simpl. apply IH.
Qed.

Lemma ws_collapsed_tail (c : N) (s : str) :
  ws_collapsed (c :: s) = true → ws_collapsed s = true.
Proof. simpl. intros H. by apply andb_prop in H as [_ ?]. Qed.

Lemma ws_collapsed_drop (k : nat) (s : str) :
  ws_collapsed s = true → ws_collapsed (drop k s) = true.
Proof.
  revert s. induction k as [|k IH]; intros s H; [by rewrite drop_0|].
  destruct s as [|c s]; [done|]. simpl. apply IH. by eapply ws_collapsed_tail.
Qed.

Lemma ws_collapsed_take (k : nat) (s : str) :
  ws_collapsed s = true → ws_collapsed (take k s) = true.
Proof.
  revert s. induction k as [|k IH]; intros s H; [by rewrite take_0|].
  destruct s as [|c s]; [done|]. simpl in *.
  apply andb_prop in H as [H1 H2]. rewrite (IH _ H2), andb_true_r.
  destruct (isspace c); [|done].
  apply andb_prop in H1 as [-> H1]. simpl.
  destruct s as [|d s]; [by destruct k|]. by destruct k.
Qed.

Lemma ws_collapsed_strip (s : str) :
  ws_collapsed s = true → ws_collapsed (strip s) = true.
Proof.
  intros H. unfold strip. destruct (rstrip_take (lstrip s)) as [k ->].
  destruct (lstrip_drop s) as [j ->].
  by apply ws_collapsed_take, ws_collapsed_drop.
Qed.

(** C4.  [sanitize_filename] is a total function, and for every input
    string its result has at most 150 characters, contains none of the
    characters less-than, greater-than, colon, double quote, slash,
    backslash, bar, question mark and star, and has its whitespace
    collapsed: every whitespace character of the result is a single space
    that no other whitespace character follows. *)
Theorem sanitize_filename_total_bounded (name : str) :
  let out := sanitize_filename name DEFAULT_NAME in
  (length out ≤ 150)%nat
  ∧ Forall (λ c, forbidden c = false) out
  ∧ ws_collapsed out = true.
Proof.
  simpl. unfold sanitize_filename, py_or.
  set (n0 := if truthy name then strip name else DEFAULT_NAME).
  set (n2 := re_sub_runs isspace space (re_sub_runs forbidden underscore n0)).
  destruct (truthy (strip (take 150 n2))) eqn:E.
  - split_and!.
    + etrans; [apply strip_length|]. rewrite length_take. lia.
    + apply strip_Forall, Forall_take. unfold n2, re_sub_runs.
      apply re_sub_runs_from_Forall; [done|].
      by apply re_sub_runs_from_class.
    + apply ws_collapsed_strip, ws_collapsed_take. unfold n2, re_sub_runs.
      apply ws_collapsed_sub_from.
  - split_and!; [vm_compute; lia | | done].
    by repeat constructor.
Qed.

(** ** Deduplication *)

Lemma dedupe_key_eq (e1 e2 : entry) :
  title e1 = title e2 → date e1 = date e2 → dedupe_key e1 = dedupe_key e2.
Proof. unfold dedupe_key. by intros -> ->. Qed.

Lemma observe_seen_mono (st : run_state) (e : entry) (k : str) :
  k ∈ seen_titles st → k ∈ seen_titles (observe st e).1.
Proof.
  intros H. unfold observe. case_decide; simpl; [done|]. set_solver.
Qed.

Lemma observe_records (st : run_state) (e : entry) :
  dedupe_key e ∈ seen_titles (observe st e).1.
Proof. unfold observe. case_decide; simpl; [done|]. set_solver. Qed.

Lemma filter_new_seen_mono (entries : list entry) (st : run_state) (k : str) :
  k ∈ seen_titles st → k ∈ seen_titles (filter_new st entries).1.
Proof.
  revert st. induction entries as [|e rest IH]; intros st H; simpl; [done|].
  pose proof (observe_seen_mono st e k H) as H1.
  destruct (observe st e) as [st1 fresh]. simpl in H1.
  specialize (IH st1 H1). by destruct (filter_new st1 rest).
Qed.

Lemma filter_new_app (a b : list entry) (st : run_state) :
  (filter_new st (a ++ b)).1 = (filter_new (filter_new st a).1 b).1.
Proof.
  revert st. induction a as [|e a IH]; intros st; simpl; [done|].
  destruct (observe st e) as [st1 fresh]. specialize (IH st1).
  destruct (filter_new st1 (a ++ b)), (filter_new st1 a). simpl in *. done.
Qed.

Lemma observe_ok (st : run_state) (e : entry) :
  collection_ok st → collection_ok (observe st e).1.
Proof.
  intros [Hnd Hseen]. unfold observe. case_decide as Hk; simpl; [done|].
  split; simpl.
  - rewrite fmap_app. apply NoDup_app. split_and!; [done| |].
    + intros k Hin Hk'. apply list_elem_of_fmap in Hin as (e' & -> & He').
      apply list_elem_of_singleton in Hk'. apply Hk. rewrite <- Hk'. auto.
    + simpl. apply NoDup_singleton.
  - intros e' He'. apply elem_of_app in He' as [He'|He'].
    + specialize (Hseen _ He'). set_solver.
    + apply list_elem_of_singleton in He' as ->. set_solver.
Qed.

Lemma filter_new_ok (entries : list entry) (st : run_state) :
  collection_ok st → collection_ok (filter_new st entries).1.
Proof.
  revert st. induction entries as [|e rest IH]; intros st H; simpl; [done|].
  pose proof (observe_ok st e H) as H1.
  destruct (observe st e) as [st1 fresh]. simpl in H1.
  specialize (IH st1 H1). by destruct (filter_new st1 rest).
Qed.

Lemma filter_key_absent (k : str) (l : list entry) :
  k ∉ dedupe_key <$> l → filter (λ e, dedupe_key e = k) l = [].
Proof.
  induction l as [|e l IH]; intros H; [done|].
  rewrite fmap_cons in H. apply not_elem_of_cons in H as [Hne H].
  rewrite filter_cons. case_decide; [congruence | by apply IH].
Qed.

Lemma same_key_at_most_once (k : str) (l : list entry) :
  NoDup (dedupe_key <$> l) →
  (length (filter (λ e, dedupe_key e = k) l) ≤ 1)%nat.
Proof.
  induction l as [|e l IH]; simpl; [lia|].
  intros Hnd. apply NoDup_cons in Hnd as [Hnot Hnd].
  rewrite filter_cons. case_decide as Hk; [|by apply IH].
  simpl. rewrite filter_key_absent; [simpl; lia|]. by rewrite <- Hk.
Qed.

(** C2.  Deduplication is idempotent.  Run the filter loop from the empty
    state of [main] over any sequence of entries in which [e1] occurs, and
    then observe an entry [e2] with the title and the date of [e1]: the
    observation reports [e2] as not new and leaves the collection and the
    set of seen keys as they were, and the collection holds at most one
    entry with that title and date. *)
Theorem dedupe_idempotent (before between : list entry) (e1 e2 : entry) :
  title e1 = title e2 → date e1 = date e2 →
  let st := (filter_new initial_state (before ++ e1 :: between)).1 in
  observe st e2 = (st, false)
  ∧ (length (filter (λ e, dedupe_key e = dedupe_key e1)
               (all_entries (observe st e2).1)) ≤ 1)%nat.
Proof.
  intros Ht Hd st.
  assert (dedupe_key e2 ∈ seen_titles st) as Hin.
  { rewrite <- (dedupe_key_eq e1 e2 Ht Hd). unfold st.
    rewrite filter_new_app. simpl.
    pose proof (observe_records (filter_new initial_state before).1 e1) as H.
    destruct (observe _ e1) as [st1 fresh]. simpl in H.
    pose proof (filter_new_seen_mono between st1 _ H) as H'.
    by destruct (filter_new st1 between). }
  assert (observe st e2 = (st, false)) as Hobs.
  { unfold observe. by rewrite decide_True. }
  split; [done|]. rewrite Hobs. simpl.
  apply same_key_at_most_once.
  apply (filter_new_ok _ initial_state). split; simpl.
  - constructor.
  - intros e He. by apply elem_of_nil in He.
Qed.

Lemma dedupe_idempotent_witness :
  let a := Entry (py "Guidance A") [] [] (py "1/2/2020") [] [] [] [] in
  let b := Entry (py "Guidance B") [] [] (py "3/4/2021") [] [] [] [] in
  let a' := set_download_url (py "/media/1/download") a in
  let st := (filter_new initial_state ([b] ++ a :: [b])).1 in
  observe st a' = (st, false)
  ∧ (length (filter (λ e, dedupe_key e = dedupe_key a)
               (all_entries (observe st a').1)) ≤ 1)%nat.
Proof.
  intros a b a'. apply (dedupe_idempotent [b] [b] a a'); reflexivity.
Defined.

(** ** Link classification *)

Lemma for_fold_scan_link (links : list (str * str)) (e : entry) :
  for_fold scan_link (readable_link <$> links) e
  = Ok (scan_links_pure e links).
Proof.
  revert e. induction links as [|[h t] links IH]; intros e; simpl; [done|].
  rewrite IH. unfold py_or. simpl. by destruct h.
Qed.

Lemma for_fold_scan_cell `{Unicode} (cells : list str) (e : entry) :
  for_fold scan_cell (Ok <$> cells) e = Ok (scan_cells_pure e cells).
Proof.
  revert e. induction cells as [|t cells IH]; intros e; simpl; [done|].
  by rewrite IH.
Qed.

Lemma classify_cell_keeps `{Unicode} (e : entry) (t : str) :
  title (classify_cell e t) = title e
  ∧ detail_url (classify_cell e t) = detail_url e
  ∧ download_url (classify_cell e t) = download_url e.
Proof.
  unfold classify_cell.
  repeat match goal with |- context [if ?b then _ else _] => destruct b end;
    done.
Qed.

Lemma scan_cells_keeps `{Unicode} (cells : list str) (e : entry) :
  title (scan_cells_pure e cells) = title e
  ∧ detail_url (scan_cells_pure e cells) = detail_url e
  ∧ download_url (scan_cells_pure e cells) = download_url e.
Proof.
  revert e. induction cells as [|t cells IH]; intros e; simpl; [done|].
  unfold scan_cells_pure in *. simpl.
  destruct (IH (classify_cell e (strip t))) as (-> & -> & ->).
  apply classify_cell_keeps.
Qed.

Lemma scan_links_download_last (post : list (str * str)) (e : entry) :
  Forall (λ l, is_download_href l.1 = false) post →
  download_url (scan_links_pure e post) = download_url e.
Proof.
  intros H. revert e. induction H as [|[h t] post Hh _ IH]; intros e; [done|].
  unfold scan_links_pure in *. simpl in *. rewrite IH.
  unfold classify_link. rewrite Hh.
  repeat match goal with |- context [if ?b then _ else _] => destruct b end;
    done.
Qed.

Lemma scan_links_title_fixed (post : list (str * str)) (e : entry) :
  truthy (title e) = true →
  title (scan_links_pure e post) = title e
  ∧ detail_url (scan_links_pure e post) = detail_url e.
Proof.
  revert e. induction post as [|[h t] post IH]; intros e He; [done|].
  unfold scan_links_pure in *. simpl.
  assert (title (classify_link e h (strip t)) = title e
          ∧ detail_url (classify_link e h (strip t)) = detail_url e)
    as [Ht Hd].
  { unfold classify_link. rewrite He. simpl. rewrite andb_false_r.
    by destruct (is_download_href h), (is_detail_href h). }
  destruct (IH (classify_link e h (strip t))) as [-> ->]; [by rewrite Ht|].
  done.
Qed.

Lemma scan_links_title_none (pre : list (str * str)) (e : entry) :
  Forall (λ l, title_candidate l = false) pre →
  title e = [] →
  title (scan_links_pure e pre) = [].
Proof.
  intros H. revert e. induction H as [|[h t] pre Hh _ IH]; intros e He; [done|].
  unfold scan_links_pure in *. simpl. apply IH.
  unfold title_candidate in Hh. simpl in Hh. unfold classify_link.
  rewrite He. simpl.
  destruct (is_download_href h); [done|]. simpl in Hh.
  destruct (is_detail_href h); simpl in Hh.
  - by rewrite Hh.
  - destruct (contains (py "fda.gov") h); simpl in Hh; [by rewrite Hh | done].
Qed.

Lemma classify_link_candidate (e : entry) (h t : str) :
  title_candidate (h, t) = true → title e = [] →
  title (classify_link e h (strip t)) = strip t
  ∧ detail_url (classify_link e h (strip t)) = h.
Proof.
  unfold title_candidate, classify_link. simpl. intros H He. rewrite He.
  apply andb_prop in H as [H Ht]. apply andb_prop in H as [Hd Hc].
  apply negb_true_iff in Hd. rewrite Hd, Ht. simpl.
  destruct (is_detail_href h); [done|]. simpl in Hc. by rewrite Hc.
Qed.

Lemma extract_row_readable `{Unicode} (cells : list str)
    (links : list (str * str)) :
  (2 ≤ length cells)%nat →
  extract_row (readable_row cells links)
  = let e1 := scan_links_pure blank_entry links in
    let e2 := if negb (truthy (title e1))
              then set_title (first_line (strip (default [] (cells !! 1%nat)))) e1
              else e1 in
    let e3 := scan_cells_pure e2 cells in
    Ok (if truthy (title e3) then Some e3 else None).
Proof.
  intros Hlen. unfold extract_row, readable_row. simpl.
  rewrite length_fmap.
  destruct (length cells <? 2)%nat eqn:E; [apply Nat.ltb_lt in E; lia|].
  rewrite for_fold_scan_link. simpl.
  rewrite list_lookup_fmap.
  destruct (cells !! 1%nat) as [t|] eqn:E1.
  - simpl. destruct (truthy (title (scan_links_pure blank_entry links)));
      simpl; by rewrite for_fold_scan_cell.
  - apply lookup_ge_None in E1. lia.
Qed.

(** C3, as the code has it.  For a row whose cells and links can be read
    and that has at least two cells: the last link that qualifies as a
    download reference determines the download URL of the entry, and the
    first link that can give a title (a detail link or an FDA link, not a
    download reference, with non-empty text) determines its title and its
    detail URL; later links of that kind are ignored. *)
Theorem link_classification `{Unicode} (cells : list str)
    (pre post : list (str * str)) (l : str * str) :
  (2 ≤ length cells)%nat →
  ∃ o, extract_row (readable_row cells (pre ++ l :: post)) = Ok o
    ∧ (is_download_href l.1 = true →
       Forall (λ x, is_download_href x.1 = false) post →
       ∀ e, o = Some e → download_url e = l.1)
    ∧ (title_candidate l = true →
       Forall (λ x, title_candidate x = false) pre →
       ∃ e, o = Some e ∧ title e = strip l.2 ∧ detail_url e = l.1).
Proof.
  intros Hlen. rewrite extract_row_readable by done.
  eexists. split; [reflexivity|].
  set (e0 := scan_links_pure blank_entry pre).
  set (e1 := scan_links_pure blank_entry (pre ++ l :: post)).
  assert (e1 = scan_links_pure (classify_link e0 l.1 (strip l.2)) post) as He1.
  { unfold e1, e0, scan_links_pure. by rewrite foldl_app. }
  split.
  - intros Hd Hpost e He. simpl in He.
    assert (download_url e1 = l.1) as Hdl.
    { rewrite He1, scan_links_download_last by done.
      unfold classify_link. by rewrite Hd. }
    match type of He with
    | (if truthy (title ?e3) then _ else _) = _ => destruct (truthy (title e3))
    end; [|done].
    injection He as <-.
    destruct (scan_cells_keeps cells
                (if negb (truthy (title e1))
                 then set_title
                        (first_line (strip (default [] (cells !! 1%nat)))) e1
                 else e1)) as (_ & _ & ->).
    by destruct (negb (truthy (title e1))).
  - intros Hc Hpre.
    assert (title e0 = []) as H0 by by apply scan_links_title_none.
    destruct (classify_link_candidate e0 l.1 l.2) as [Ht Hu];
      [by destruct l | done |].
    assert (truthy (strip l.2) = true) as Hne.
    { unfold title_candidate in Hc. by apply andb_prop in Hc as [_ ?]. }
    destruct (scan_links_title_fixed post (classify_link e0 l.1 (strip l.2)))
      as [Ht1 Hu1]; [by rewrite Ht|].
    rewrite <- He1 in Ht1, Hu1. rewrite Ht in Ht1. rewrite Hu in Hu1.
    simpl. rewrite Ht1, Hne. simpl.
    destruct (scan_cells_keeps cells e1) as (Ht3 & Hu3 & _).
    rewrite Ht3, Ht1, Hne. eexists. split; [reflexivity|].
    by rewrite Ht3, Hu3.
Qed.

Lemma link_classification_witness :
  let cells := [py "1"; py "Doc"; py "1/2/2020"] in
  let pre := [(py "#", py "")] in
  let post := [(py "https://www.fda.gov/guidance/b", py "Other")] in
  let l := (py "https://www.fda.gov/guidance/a", py " Doc A ") in
  (2 ≤ length cells)%nat
  ∧ ∃ o, extract_row (H := ascii_unicode)
           (readable_row cells (pre ++ l :: post)) = Ok o
    ∧ ∃ e, o = Some e ∧ title e = py "Doc A" ∧ detail_url e = l.1.
Proof.
  intros cells pre post l. split; [simpl; lia|].
  destruct (link_classification (H := ascii_unicode) cells pre post l)
    as (o & Ho & _ & Ht); [simpl; lia|].
  exists o. split; [exact Ho|].
  apply Ht; [reflexivity | by repeat constructor].
Defined.

(** C3 as stated fails: of two download references in a row, the second
    one, not the first, ends up as the download URL of the entry. *)
Lemma first_download_link_overwritten :
  let first := py "https://www.fda.gov/media/1/download" in
  let second := py "https://www.fda.gov/media/2/download" in
  let r := readable_row [py "1"; py "Doc"]
             [(py "https://www.fda.gov/guidance/a", py "Doc");
              (first, py "PDF"); (second, py "Word")] in
  ∃ e, extract_row (H := ascii_unicode) r = Ok (Some e)
       ∧ download_url e = second ∧ download_url e ≠ first.
Proof.
  eexists. split; [vm_compute; reflexivity|]. split; [reflexivity|].
  vm_compute. discriminate.
Qed.

(** ** The extractor catches what the rendering engine raises *)

Lemma for_rows_guarded `{Unicode} (rows : list row) (entries : list entry) :
  for_rows (λ r, try_except (row_body r) pass) rows entries
  = (entries ++ omap row_entry rows, Ok ()).
Proof.
  revert entries. induction rows as [|r rows IH]; intros entries; simpl.
  - by rewrite app_nil_r.
  - unfold seq_, try_except, row_body, row_entry at 1, pass.
    destruct (extract_row r) as [[e|]|]; simpl; rewrite IH; [|done..].
    by rewrite <- app_assoc.
Qed.

Lemma extract_row_titled `{Unicode} (r : row) (e : entry) :
  extract_row r = Ok (Some e) → truthy (title e) = true.
Proof.
  unfold extract_row.
  destruct (row_cells r) as [cells|]; simpl; [|done].
  destruct (length cells <? 2)%nat; [done|].
  destruct (row_links r) as [links|]; simpl; [|done].
  destruct (for_fold scan_link links blank_entry) as [e1|]; simpl; [|done].
  match goal with
  | |- context [mbind _ ?m] => destruct m as [e2|]; simpl; [|done]
  end.
  destruct (for_fold scan_cell cells e2) as [e3|]; simpl; [|done].
  destruct (truthy (title e3)) eqn:E; [|done]. by intros [= <-].
Qed.

Lemma extract_row_few_cells `{Unicode} (cells : list (exn str))
    (links : exn (list link)) :
  (length cells < 2)%nat → extract_row (Row (Ok cells) links) = Ok None.
Proof.
  intros Hlen. unfold extract_row. simpl.
  destruct (length cells <? 2)%nat eqn:E; [done|].
  apply Nat.ltb_ge in E. lia.
Qed.

(** C9.  The field extractor never raises.  Whatever the rendering engine
    answers, with queries that raise and rows with missing cells or links
    included, [collect_table_rows_fast] returns a list of entries: nothing
    if the rows cannot be listed, and otherwise, in row order, the entry of
    every row that yields one, a row whose extraction raises or ends
    without a title being skipped.  Every returned entry has a non-empty
    title. *)
Theorem extractor_never_raises `{Unicode} (drv : driver) :
  ∃ entries,
    collect_table_rows_fast drv = Ok entries
    ∧ entries = match drv with
                | Ok rows => omap row_entry rows
                | Raise => []
                end
    ∧ Forall (λ e, title e ≠ []) entries.
Proof.
  unfold collect_table_rows_fast.
  unfold try_except at 1. unfold seq_, find_rows.
  destruct drv as [rows|]; simpl.
  - rewrite for_rows_guarded. simpl. eexists. split_and!; [done..|].
    apply Forall_forall. intros e He.
    apply list_elem_of_omap in He as (r & _ & Hr).
    unfold row_entry in Hr. destruct (extract_row r) as [o|] eqn:E; [|done].
    subst o. apply extract_row_titled in E. by destruct (title e).
  - eexists. split_and!; [done..|]. constructor.
Qed.

(** A page with a row that cannot be read, a row with one cell, a row
    without a title and a good row gives the entry of the good row. *)
Example extractor_skips_malformed :
  let good := readable_row [py "1"; py "Doc"; py "Final"] [] in
  collect_table_rows_fast (H := ascii_unicode)
    (Ok [Row Raise (Ok []); readable_row [py "only"] [];
         Row (Ok [Ok (py "1"); Raise]) (Ok []);
         readable_row [py ""; py "  "] []; good])
  = Ok [Entry (py "Doc") [] [] [] [] [] (py "Final") []].
Proof. vm_compute. reflexivity. Qed.

(** ** Batch accounting *)

Lemma charged_cons (c : counter) (f : future) (l : list future) :
  charged c (f :: l) = (if decide (verdict f = c) then 1 else 0) + charged c l.
Proof.
  unfold charged. rewrite filter_cons. case_decide; simpl length; lia.
Qed.

Lemma charged_total (l : list future) :
  charged Downloaded l + charged Skipped l + charged Failed l
  = N.of_nat (length l).
Proof.
  induction l as [|f l IH]; [done|].
  rewrite !charged_cons. simpl length.
  destruct (verdict f); repeat case_decide; try done; lia.
Qed.

Lemma charged_perm (c : counter) (l l' : list future) :
  l ≡ₚ l' → charged c l = charged c l'.
Proof. intros Hp. unfold charged. by rewrite Hp. Qed.

Lemma account_fold (l : list future) (res : results) :
  let res' := foldl account res l in
  downloaded res' = downloaded res + charged Downloaded l
  ∧ skipped res' = skipped res + charged Skipped l
  ∧ failed res' = failed res + charged Failed l.
Proof.
  revert res. induction l as [|f l IH]; intros res; simpl.
  - unfold charged. simpl. lia.
  - destruct (IH (account res f)) as (-> & -> & ->).
    rewrite !charged_cons. unfold account, verdict.
    destruct (fut_outcome f) as [[[] m]|]; simpl;
      [destruct (str_eqb m (py "Exists")); simpl|..];
      repeat case_decide; try done; lia.
Qed.

Lemma submit_all_counts (run : worker) (start_index i : N)
    (entries : list entry) (w : world) :
  let '(_, futures, nskip) := submit_all run start_index i entries w in
  nskip = without_url entries
  ∧ N.of_nat (length futures) + nskip = N.of_nat (length entries).
Proof.
  revert i w. induction entries as [|e rest IH]; intros i w; simpl; [done|].
  unfold without_url in *. rewrite filter_cons.
  destruct (truthy (download_url e)) eqn:E.
  - destruct (run e (start_index + i) w) as [w1 outcome].
    specialize (IH (i + 1) w1).
    destruct (submit_all run start_index (i + 1) rest w1) as [[w2 fs] n].
    rewrite decide_False by done. simpl length. lia.
  - specialize (IH (i + 1) w).
    destruct (submit_all run start_index (i + 1) rest w) as [[w2 fs] n].
    rewrite decide_True by done. simpl length. lia.
Qed.

(** C10.  Batch accounting.  Whatever the workers do (return a result or
    raise) and in whatever order the futures complete, every entry of the
    batch is counted once: entries without a download URL and tasks that
    report an existing file under [skipped], other successes under
    [downloaded], failures and worker exceptions under [failed]; the three
    counters add up to the number of entries of the batch. *)
Theorem batch_accounting (run : worker) (as_completed : completion)
    (entries : list entry) (start_index : N) (w : world) :
  (∀ futures, as_completed futures ≡ₚ futures) →
  let futures := (submit_all run start_index 0 entries w).1.2 in
  let res := (download_batch_parallel run as_completed entries start_index w).2 in
  downloaded res = charged Downloaded futures
  ∧ skipped res = without_url entries + charged Skipped futures
  ∧ failed res = charged Failed futures
  ∧ downloaded res + skipped res + failed res = N.of_nat (length entries).
Proof.
  intros Hperm. unfold download_batch_parallel.
  pose proof (submit_all_counts run start_index 0 entries w) as Hc.
  destruct (submit_all run start_index 0 entries w) as [[w' futures] nskip].
  destruct Hc as [Hskip Hlen]. simpl.
  destruct (account_fold (as_completed futures) (Results 0 nskip 0))
    as (Hd & Hs & Hf).
  simpl in Hd, Hs, Hf.
  rewrite (charged_perm _ _ _ (Hperm futures)) in Hd.
  rewrite (charged_perm _ _ _ (Hperm futures)) in Hs.
  rewrite (charged_perm _ _ _ (Hperm futures)) in Hf.
  pose proof (charged_total futures) as Ht.
  rewrite Hd, Hs, Hf. split_and!; lia.
Qed.

Lemma batch_accounting_witness :
  let good := py "https://www.fda.gov/media/1/download" in
  let entries :=
    [Entry (py "A") [] good [] [] [] [] [];
     Entry (py "B") [] [] [] [] [] [] [];
     Entry (py "C") [] (py "/media/3/download") [] [] [] [] []] in
  let res := (download_batch_parallel (session_worker (net_one_good good))
                reverse entries 1 (World ∅ 0)).2 in
  (∀ futures : list future, reverse futures ≡ₚ futures)
  ∧ downloaded res + skipped res + failed res = 3.
Proof.
  intros good entries res.
  assert (∀ futures : list future, reverse futures ≡ₚ futures) as Hperm
    by (intros futures; apply reverse_Permutation).
  split; [exact Hperm|].
  exact (proj2 (proj2 (proj2
    (batch_accounting (session_worker (net_one_good good)) reverse entries 1
       (World ∅ 0) Hperm)))).
Defined.

Example batch_accounting_run :
  let good := py "https://www.fda.gov/media/1/download" in
  let entries :=
    [Entry (py "A") [] good [] [] [] [] [];
     Entry (py "B") [] [] [] [] [] [] [];
     Entry (py "C") [] (py "/media/3/download") [] [] [] [] []] in
  (download_batch_parallel (session_worker (net_one_good good))
     reverse entries 1 (World ∅ 0)).2
  = Results 1 1 1.
Proof. vm_compute. reflexivity. Qed.

(** ** Targeted retry: 404 is terminal *)

Lemma retry_attempt_fetches (net : transport) (url filename : str)
    (attempt : N) (w : world) :
  fetches (retry_attempt net url filename attempt w).1 = fetches w + 1.
Proof.
  unfold retry_attempt.
  destruct (net url (fetches w)) as [code body|code written msg|msg];
    repeat match goal with
           | |- context [if ?b then _ else _] => destruct b
           end; done.
Qed.

Lemma retry_attempt_404 (net : transport) (url filename : str)
    (attempt : N) (w : world) :
  status_of (net url (fetches w)) = Some 404 →
  retry_attempt net url filename attempt w
  = (count_fetch w, inl (false, NOT_FOUND_MESSAGE)).
Proof.
  unfold retry_attempt.
  destruct (net url (fetches w)) as [code body|code written msg|msg];
    simpl; intros [= ->]; done.
Qed.

Lemma retry_attempt_other (net : transport) (url filename : str)
    (attempt code : N) (w : world) :
  status_of (net url (fetches w)) = Some code → code ≠ 200 → code ≠ 404 →
  retry_attempt net url filename attempt w
  = (count_fetch w,
     if attempt =? 0 then inr ()
     else inl (false, py "HTTP " ++ decimal code)).
Proof.
  intros Hs H200 H404. unfold retry_attempt.
  apply N.eqb_neq in H200, H404.
  destruct (net url (fetches w)) as [c body|c written msg|msg];
    simpl in Hs; [| |done]; injection Hs as ->; rewrite H200, H404;
    by destruct (attempt =? 0).
Qed.

Lemma retry_attempts_cap (net : transport) (url filename : str)
    (attempts : list N) (w : world) :
  fetches (retry_attempts net url filename attempts w).1
  ≤ fetches w + N.of_nat (length attempts).
Proof.
  revert w. induction attempts as [|a rest IH]; intros w; simpl; [lia|].
  pose proof (retry_attempt_fetches net url filename a w) as Hf.
  destruct (retry_attempt net url filename a w) as [w' [r|[]]]; simpl in *.
  - lia.
  - specialize (IH w'). lia.
Qed.

(** C5.  In [download_file] of the reconciliation workflow, for a task that
    reaches the network (it has a URL and no valid file yet): at most two
    requests are made; a 404 answer to the first request ends the task at
    once with the terminal failure and no second request; another status
    that is neither 200 nor 404 is followed by a second request, whose 404
    again is terminal and whose other non-success status is reported as
    the failure, after two requests in all. *)
Theorem retry_404_terminal (net : transport) (e : entry) (index : N)
    (w : world) :
  truthy (download_url e) = true →
  valid_file w (target_filename index (title e)) = false →
  let url := absolute_url (download_url e) in
  let out := download_file net e index w in
  fetches out.1 ≤ fetches w + 2
  ∧ (status_of (net url (fetches w)) = Some 404 →
     out = (count_fetch w, (false, NOT_FOUND_MESSAGE)))
  ∧ (∀ code, status_of (net url (fetches w)) = Some code →
       code ≠ 200 → code ≠ 404 →
       fetches out.1 = fetches w + 2
       ∧ (status_of (net url (fetches w + 1)) = Some 404 →
          out.2 = (false, NOT_FOUND_MESSAGE))
       ∧ (∀ code', status_of (net url (fetches w + 1)) = Some code' →
            code' ≠ 200 → code' ≠ 404 →
            out.2 = (false, py "HTTP " ++ decimal code'))).
Proof.
  intros Hurl Hfile url out. unfold out, download_file.
  rewrite Hurl, Hfile. simpl negb. cbv iota. fold url.
  set (filename := target_filename index (title e)).
  split_and!.
  - etrans; [apply retry_attempts_cap|]. simpl. lia.
  - intros H404. simpl. by rewrite retry_attempt_404.
  - intros code Hs H200 H404. simpl.
    rewrite (retry_attempt_other _ _ _ _ code) by done. simpl.
    pose proof (retry_attempt_fetches net url filename 1 (count_fetch w)) as Hf.
    split_and!.
    + destruct (retry_attempt net url filename 1 (count_fetch w))
        as [w' [r|[]]]; simpl in *; lia.
    + intros H2. by rewrite retry_attempt_404.
    + intros code' H2 H200' H404'.
      by rewrite (retry_attempt_other _ _ _ _ code').
Qed.

Lemma retry_404_terminal_witness :
  let w := World ∅ 0 in
  let out := download_file (net_status 404) sample_entry 7 w in
  truthy (download_url sample_entry) = true
  ∧ valid_file w (target_filename 7 (title sample_entry)) = false
  ∧ fetches out.1 ≤ fetches w + 2
  ∧ out = (count_fetch w, (false, NOT_FOUND_MESSAGE)).
Proof.
  intros w out.
  destruct (retry_404_terminal (net_status 404) sample_entry 7 w)
    as (Hcap & H404 & _); [reflexivity | reflexivity |].
  split_and!; [reflexivity | reflexivity | exact Hcap |].
  apply H404. reflexivity.
Defined.

Example retry_404_one_request :
  download_file (net_status 404) sample_entry 7 (World ∅ 0)
  = (World ∅ 1, (false, py "404 - PDF removed from FDA")).
Proof. vm_compute. reflexivity. Qed.

Example retry_500_two_requests :
  download_file (net_status 500) sample_entry 7 (World ∅ 0)
  = (World ∅ 2, (false, py "HTTP 500")).
Proof. vm_compute. reflexivity. Qed.

(** ** Bulk downloader: undersized writes and the final check *)

Lemma valid_file_write (filename : str) (size : N) (w : world) :
  valid_file (write_file filename size w) filename = (MIN_SIZE <? size).
Proof. unfold valid_file, write_file. simpl. by rewrite lookup_insert_eq. Qed.

Lemma try_fetch_fetches (net : transport) (url filename : str) (w : world) :
  fetches (try_fetch net url filename w).1 = fetches w + 1.
Proof.
  unfold try_fetch.
  destruct (net url (fetches w)) as [code body|code written msg|msg];
    repeat match goal with
           | |- context [if ?b then _ else _] => destruct b
           end; done.
Qed.

Lemma try_fetch_returned (net : transport) (url filename : str)
    (w w' : world) (r : result) :
  try_fetch net url filename w = (w', Returned r) →
  r = (true, filename) ∧ valid_file w' filename = true.
Proof.
  unfold try_fetch.
  destruct (net url (fetches w)) as [code body|code written msg|msg];
    [| |done].
  - destruct (accepted_status code).
    + destruct (valid_file _ filename) eqn:E; [|done].
      intros [= <- <-]. done.
    + by destruct (is_error_status code).
  - destruct (accepted_status code); [done|].
    by destruct (is_error_status code).
Qed.

Lemma try_fetch_undersized (net : transport) (url filename : str)
    (w : world) (code body : N) :
  net url (fetches w) = Replied code body →
  accepted_status code = true → body ≤ MIN_SIZE →
  try_fetch net url filename w
  = (unlink filename (write_file filename body (count_fetch w)), NextAttempt).
Proof.
  intros Hr Hc Hb. unfold try_fetch. rewrite Hr, Hc, valid_file_write.
  destruct (MIN_SIZE <? body) eqn:E; [|done]. apply N.ltb_lt in E. lia.
Qed.

Lemma final_check_sound (w : world) (filename failure : str) :
  (final_check w filename failure).2.1
  = valid_file (final_check w filename failure).1 filename.
Proof. unfold final_check. by destruct (valid_file w filename) eqn:E. Qed.

Lemma retry_loop_sound (net : transport) (url filename : str)
    (attempts : list N) (w : world) :
  (retry_loop net url filename attempts w).2.1
  = valid_file (retry_loop net url filename attempts w).1 filename.
Proof.
  revert w. induction attempts as [|a rest IH]; intros w; simpl.
  - apply final_check_sound.
  - destruct (try_fetch net url filename w) as [w' [r| |code|msg]] eqn:E.
    + apply try_fetch_returned in E as [-> Hv]. simpl. by rewrite Hv.
    + apply IH.
    + destruct (a <? 2); [apply IH | apply final_check_sound].
    + destruct (a <? 2); [apply IH | apply final_check_sound].
Qed.

Lemma final_check_fetches (w : world) (filename failure : str) :
  fetches (final_check w filename failure).1 = fetches w.
Proof. unfold final_check. by destruct (valid_file w filename). Qed.

Lemma retry_loop_cap (net : transport) (url filename : str)
    (attempts : list N) (w : world) :
  fetches (retry_loop net url filename attempts w).1
  ≤ fetches w + N.of_nat (length attempts).
Proof.
  revert w. induction attempts as [|a rest IH]; intros w; simpl.
  - rewrite final_check_fetches. lia.
  - pose proof (try_fetch_fetches net url filename w) as Hf.
    destruct (try_fetch net url filename w) as [w' [r| |code|msg]];
      simpl in Hf.
    + simpl. lia.
    + specialize (IH w'). lia.
    + destruct (a <? 2); [specialize (IH w'); lia|].
      rewrite final_check_fetches. lia.
    + destruct (a <? 2); [specialize (IH w'); lia|].
      rewrite final_check_fetches. lia.
Qed.

Lemma download_result_sound (net : transport) (e : entry) (index : N)
    (w : world) :
  truthy (download_url e) = true →
  (download_file_with_session net e index w).2.1
  = valid_file (download_file_with_session net e index w).1
      (target_filename index (title e)).
Proof.
  intros Hurl. unfold download_file_with_session. rewrite Hurl. simpl negb.
  cbv iota.
  destruct (valid_file w (target_filename index (title e))) eqn:E;
    [cbn [fst snd]; by rewrite E|].
  apply retry_loop_sound.
Qed.

Lemma error_status_not_accepted (code : N) :
  is_error_status code = true → accepted_status code = false.
Proof.
  unfold is_error_status, accepted_status. intros H.
  apply andb_prop in H as [H _]. apply N.leb_le in H.
  repeat (apply orb_false_intro); apply N.eqb_neq; lia.
Qed.

Lemma try_fetch_error (net : transport) (url filename : str) (w : world)
    (code : N) :
  status_of (net url (fetches w)) = Some code →
  is_error_status code = true →
  try_fetch net url filename w = (count_fetch w, RaisedHTTPError code).
Proof.
  intros Hs He. unfold try_fetch.
  pose proof (error_status_not_accepted code He) as Ha.
  destruct (net url (fetches w)) as [c body|c written msg|msg];
    simpl in Hs; [| |done]; injection Hs as ->; by rewrite Ha, He.
Qed.

Lemma retry_loop_undersized (net : transport) (url filename : str)
    (attempt : N) (rest : list N) (w : world) :
  undersized_reply (net url (fetches w)) →
  retry_loop net url filename (attempt :: rest) w
  = retry_loop net url filename rest
      (World (delete filename (files w)) (fetches w + 1)).
Proof.
  intros (code & body & Hr & Hc & Hb). simpl.
  rewrite (try_fetch_undersized net url filename w code body Hr Hc Hb).
  unfold unlink, write_file, count_fetch. simpl.
  by rewrite delete_insert_eq.
Qed.

(** C8, as the code has it.  Undersized writes and the final check in
    [download_file_with_session], for a task with a download URL.  The
    function makes its three attempts in the retry loop.  An attempt whose
    accepted answer arrives whole and writes no more than the minimum size
    deletes the file again and counts as failed: the loop goes on with
    the attempts that are left, and three such answers end in the failure
    [Failed] after three requests, with no file at the target.  At most
    three requests are made, and whichever way the function ends it
    reports success exactly when a file above the minimum size is at the
    target path; in particular a body that was written in full although
    its transfer was reported as broken is found by the final check after
    the remaining attempts have failed. *)
Theorem undersized_and_final_check (net : transport) (e : entry) (index : N)
    (w : world) :
  truthy (download_url e) = true →
  let filename := target_filename index (title e) in
  let url := absolute_url (download_url e) in
  let out := download_file_with_session net e index w in
  (valid_file w filename = false →
   out = retry_loop net url filename [0; 1; 2] w)
  ∧ (∀ attempt rest w0,
       undersized_reply (net url (fetches w0)) →
       let w1 := World (delete filename (files w0)) (fetches w0 + 1) in
       files w1 !! filename = None
       ∧ retry_loop net url filename (attempt :: rest) w0
         = retry_loop net url filename rest w1)
  ∧ (valid_file w filename = false →
     undersized_reply (net url (fetches w)) →
     undersized_reply (net url (fetches w + 1)) →
     undersized_reply (net url (fetches w + 1 + 1)) →
     out = (World (delete filename (files w)) (fetches w + 1 + 1 + 1),
            (false, py "Failed")))
  ∧ fetches out.1 ≤ fetches w + 3
  ∧ out.2.1 = valid_file out.1 filename
  ∧ (∀ code written msg c2 c3,
       valid_file w filename = false →
       net url (fetches w) = Interrupted code written msg →
       accepted_status code = true → MIN_SIZE < written →
       status_of (net url (fetches w + 1)) = Some c2 →
       is_error_status c2 = true →
       status_of (net url (fetches w + 1 + 1)) = Some c3 →
       is_error_status c3 = true →
       out = (World (<[filename := written]> (files w)) (fetches w + 1 + 1 + 1),
              (true, filename))).
Proof.
  intros Hurl filename url out.
  assert (valid_file w filename = false →
          out = retry_loop net url filename [0; 1; 2] w) as Hloop.
  { intros Hv. unfold out, download_file_with_session.
    rewrite Hurl. simpl negb. cbv iota. fold filename url. by rewrite Hv. }
  split_and!.
  - exact Hloop.
  - intros attempt rest w0 Hr w1. split.
    + simpl. apply lookup_delete_eq.
    + by apply retry_loop_undersized.
  - intros Hv H1 H2 H3. rewrite (Hloop Hv).
    rewrite (retry_loop_undersized net url filename 0 [1; 2] w H1).
    rewrite (retry_loop_undersized net url filename 1 [2]); [|exact H2].
    rewrite (retry_loop_undersized net url filename 2 []); [|exact H3].
    cbn [files fetches]. rewrite !delete_delete_eq.
    cbn [retry_loop]. unfold final_check, valid_file. cbn [files].
    by rewrite lookup_delete_eq.
  - unfold out, download_file_with_session. rewrite Hurl. simpl negb.
    cbv iota. fold filename url.
    destruct (valid_file w filename); [simpl; lia|].
    etrans; [apply retry_loop_cap|]. simpl. lia.
  - by apply download_result_sound.
  - intros code written msg c2 c3 Hv H1 Hc Hw H2 E2 H3 E3.
    rewrite (Hloop Hv). cbn [retry_loop].
    unfold try_fetch at 1. rewrite H1, Hc.
    change (0 <? 2) with true. cbv iota.
    set (w1 := write_file filename written (count_fetch w)).
    rewrite (try_fetch_error net url filename w1 c2 H2 E2).
    change (1 <? 2) with true. cbv iota.
    rewrite (try_fetch_error net url filename (count_fetch w1) c3 H3 E3).
    change (2 <? 2) with false. cbv iota.
    unfold final_check.
    assert (valid_file (count_fetch (count_fetch w1)) filename = true) as ->.
    { unfold valid_file, w1. simpl. rewrite lookup_insert_eq.
      by apply N.ltb_lt. }
    done.
Qed.

Lemma undersized_and_final_check_witness :
  let net := net_script [Replied 200 12; Replied 200 900; Replied 200 1000] in
  let w := World ∅ 0 in
  let filename := target_filename 7 (title sample_entry) in
  let out := download_file_with_session net sample_entry 7 w in
  truthy (download_url sample_entry) = true
  ∧ valid_file w filename = false
  ∧ out = (World (delete filename ∅) 3, (false, py "Failed"))
  ∧ fetches out.1 ≤ fetches w + 3
  ∧ out.2.1 = valid_file out.1 filename.
Proof.
  intros net w filename out.
  assert (∀ n body, body ≤ MIN_SIZE → net (absolute_url (download_url sample_entry)) n = Replied 200 body →
          undersized_reply (net (absolute_url (download_url sample_entry)) n))
    as Hsmall.
  { intros n body Hb Hr. exists 200, body. by split_and!. }
  destruct (undersized_and_final_check net sample_entry 7 w)
    as (_ & _ & Hthree & Hc & Hv & _); [reflexivity|].
  split_and!; [reflexivity | reflexivity | | exact Hc | exact Hv].
  apply Hthree; [reflexivity | ..].
  - apply (Hsmall _ 12); [unfold MIN_SIZE; lia | reflexivity].
  - apply (Hsmall _ 900); [unfold MIN_SIZE; lia | reflexivity].
  - apply (Hsmall _ 1000); [unfold MIN_SIZE; lia | reflexivity].
Defined.

(** C8 as stated fails: an attempt whose transfer breaks off has written
    a file of 500 bytes, which is not above the minimum, and the file is
    not deleted; after three such attempts it is still there. *)
Lemma interrupted_write_left_in_place :
  let broken := Interrupted 200 500 (py "reset") in
  let net := net_script [broken; broken; broken] in
  let filename := target_filename 7 (title sample_entry) in
  let url := absolute_url (download_url sample_entry) in
  (∃ w1, try_fetch net url filename (World ∅ 0)
         = (w1, RaisedOther (py "reset"))
         ∧ files w1 !! filename = Some 500)
  ∧ download_file_with_session net sample_entry 7 (World ∅ 0)
    = (World {[ filename := 500 ]} 3, (false, py "reset")).
Proof.
  split.
  - eexists. split; [vm_compute; reflexivity|]. vm_compute. reflexivity.
  - vm_compute. reflexivity.
Qed.

(** Three undersized bodies: three requests, no file left, failure. *)
Example three_undersized_writes :
  download_file_with_session
    (net_script [Replied 200 12; Replied 200 900; Replied 200 1000])
    sample_entry 7 (World ∅ 0)
  = (World ∅ 3, (false, py "Failed")).
Proof. vm_compute. reflexivity. Qed.

(** A body that was written although its transfer was reported as broken,
    then two server errors: the final check finds the file. *)
Example final_check_rescues :
  download_file_with_session
    (net_script [Interrupted 200 5000 (py "reset"); Replied 500 0;
                 Replied 503 0])
    sample_entry 7 (World ∅ 0)
  = (World {[ py "0007_Doc.pdf" := 5000 ]} 3, (true, py "0007_Doc.pdf")).
Proof. vm_compute. reflexivity. Qed.

(** ** Resumability *)

Lemma final_check_world (w : world) (filename failure : str) :
  (final_check w filename failure).1 = w.
Proof. unfold final_check. by destruct (valid_file w filename). Qed.

(** An attempt touches no file but its target. *)
Lemma try_fetch_frame (net : transport) (url filename other : str)
    (w : world) :
  other ≠ filename →
  files (try_fetch net url filename w).1 !! other = files w !! other.
Proof.
  intros Hne. unfold try_fetch.
  destruct (net url (fetches w)) as [code body|code written msg|msg];
    repeat match goal with
           | |- context [if ?b then _ else _] => destruct b
           end; simpl;
    rewrite ?lookup_delete_ne, ?lookup_insert_ne by done; done.
Qed.

Lemma retry_loop_frame (net : transport) (url filename other : str)
    (attempts : list N) (w : world) :
  other ≠ filename →
  files (retry_loop net url filename attempts w).1 !! other
  = files w !! other.
Proof.
  intros Hne. revert w. induction attempts as [|a rest IH]; intros w; simpl.
  - by rewrite final_check_world.
  - pose proof (try_fetch_frame net url filename other w Hne) as Hf.
    destruct (try_fetch net url filename w) as [w' [r| |code|msg]];
      simpl in Hf; [done | by rewrite IH | |];
      (destruct (a <? 2); [by rewrite IH | by rewrite final_check_world]).
Qed.

Lemma download_exists (net : transport) (e : entry) (index : N) (w : world) :
  truthy (download_url e) = true →
  valid_file w (target_filename index (title e)) = true →
  download_file_with_session net e index w = (w, (true, EXISTS)).
Proof.
  intros Hurl Hv. unfold download_file_with_session. by rewrite Hurl, Hv.
Qed.

(** A valid file stays as it is, whichever task runs. *)
Lemma download_keeps_valid (net : transport) (e : entry) (index : N)
    (w : world) (other : str) :
  valid_file w other = true →
  valid_file (download_file_with_session net e index w).1 other = true.
Proof.
  intros Hv. unfold download_file_with_session.
  destruct (truthy (download_url e)); [|done]. simpl negb. cbv iota.
  destruct (decide (other = target_filename index (title e))) as [->|Hne].
  - by rewrite Hv.
  - destruct (valid_file w (target_filename index (title e))); [done|].
    unfold valid_file in *. by rewrite retry_loop_frame.
Qed.

Lemma download_success (net : transport) (e : entry) (index : N) (w : world) :
  (download_file_with_session net e index w).2.1 = true →
  truthy (download_url e) = true
  ∧ valid_file (download_file_with_session net e index w).1
      (target_filename index (title e)) = true.
Proof.
  intros Hs. destruct (truthy (download_url e)) eqn:Hurl.
  - split; [done|].
    by rewrite <- download_result_sound.
  - unfold download_file_with_session in Hs. by rewrite Hurl in Hs.
Qed.

Lemma phase_keeps_valid (net : transport) (tasks : list (N * entry))
    (w : world) (other : str) :
  valid_file w other = true →
  valid_file (download_phase net tasks w).1 other = true.
Proof.
  revert w. induction tasks as [|[idx e] rest IH]; intros w Hv; simpl; [done|].
  pose proof (download_keeps_valid net e idx w other Hv) as H1.
  destruct (download_file_with_session net e idx w) as [w1 r]. simpl in H1.
  specialize (IH w1 H1). by destruct (download_phase net rest w1).
Qed.

Lemma phase_length (net : transport) (tasks : list (N * entry)) (w : world) :
  length (download_phase net tasks w).2 = length tasks.
Proof.
  revert w. induction tasks as [|[idx e] rest IH]; intros w; simpl; [done|].
  destruct (download_file_with_session net e idx w) as [w1 r].
  specialize (IH w1). destruct (download_phase net rest w1). simpl in *.
  by rewrite IH.
Qed.

(** Run 1: a task reported as a success has a URL and leaves a valid file
    that is still there when the phase ends. *)
Lemma phase_success_valid (net : transport) (tasks : list (N * entry))
    (w : world) (i : nat) (idx : N) (e : entry) (r : result) :
  tasks !! i = Some (idx, e) →
  (download_phase net tasks w).2 !! i = Some r → r.1 = true →
  truthy (download_url e) = true
  ∧ valid_file (download_phase net tasks w).1
      (target_filename idx (title e)) = true.
Proof.
  revert w i. induction tasks as [|[idx0 e0] rest IH]; intros w i Ht Hr Hs;
    [done|]. simpl in *.
  pose proof (download_success net e0 idx0 w) as H0.
  destruct (download_file_with_session net e0 idx0 w) as [w1 r0].
  destruct i as [|i]; simpl in *.
  - injection Ht as -> ->.
    pose proof (phase_keeps_valid net rest w1 (target_filename idx (title e)))
      as Hk.
    destruct (download_phase net rest w1) as [w2 rs]. simpl in *.
    injection Hr as ->. destruct (H0 Hs) as [Hu Hv]. auto.
  - specialize (IH w1 i Ht).
    destruct (download_phase net rest w1) as [w2 rs]. simpl in *. auto.
Qed.

(** Run 2: a task with a URL whose file is valid when the phase starts is
    reported as existing. *)
Lemma phase_reports_exists (net : transport) (tasks : list (N * entry))
    (w : world) (i : nat) (idx : N) (e : entry) :
  tasks !! i = Some (idx, e) →
  truthy (download_url e) = true →
  valid_file w (target_filename idx (title e)) = true →
  (download_phase net tasks w).2 !! i = Some (true, EXISTS).
Proof.
  revert w i. induction tasks as [|[idx0 e0] rest IH]; intros w i Ht Hu Hv;
    [done|]. simpl in *.
  destruct i as [|i]; simpl in *.
  - injection Ht as -> ->. rewrite download_exists by done.
    by destruct (download_phase net rest w).
  - pose proof (download_keeps_valid net e0 idx0 w _ Hv) as Hk.
    destruct (download_file_with_session net e0 idx0 w) as [w1 r0].
    specialize (IH w1 i Ht Hu Hk).
    by destruct (download_phase net rest w1).
Qed.

(** Run 2 when every file is there: nothing changes, nothing is fetched. *)
Lemma phase_all_exist (net : transport) (tasks : list (N * entry))
    (w : world) :
  Forall (λ t, truthy (download_url t.2) = true
               ∧ valid_file w (target_filename t.1 (title t.2)) = true)
         tasks →
  download_phase net tasks w = (w, replicate (length tasks) (true, EXISTS)).
Proof.
  induction 1 as [|[idx e] rest [Hu Hv] _ IH]; simpl; [done|].
  simpl in Hu, Hv. rewrite download_exists by done. by rewrite IH.
Qed.

(** C1, as the code has it.  A task with a download URL whose target file
    exists with more than 1000 bytes returns success with the marker
    [Exists] and leaves the state as it was: no request is made.  Hence,
    when the download phase is run twice over the same tasks with nothing
    deleted in between, every task that succeeded in the first run is
    reported as existing in the second; and if all tasks succeeded in the
    first run, the second run makes no request, changes nothing and
    reports every task as existing. *)
Theorem resumability (net1 net2 : transport) (tasks : list (N * entry))
    (w0 : world) :
  let run1 := download_phase net1 tasks w0 in
  let run2 := download_phase net2 tasks run1.1 in
  (∀ e index w,
     truthy (download_url e) = true →
     valid_file w (target_filename index (title e)) = true →
     download_file_with_session net2 e index w = (w, (true, EXISTS)))
  ∧ (∀ i r, run1.2 !! i = Some r → r.1 = true →
       run2.2 !! i = Some (true, EXISTS))
  ∧ (Forall (λ r, r.1 = true) run1.2 →
       run2.1 = run1.1
       ∧ fetches run2.1 = fetches run1.1
       ∧ run2.2 = replicate (length tasks) (true, EXISTS)).
Proof.
  intros run1 run2. split_and!.
  - intros e index w. apply download_exists.
  - intros i r Hr Hs.
    assert (i < length tasks)%nat as Hi.
    { rewrite <- (phase_length net1 tasks w0). by eapply lookup_lt_Some. }
    apply lookup_lt_is_Some in Hi as [[idx e] Ht].
    destruct (phase_success_valid net1 tasks w0 i idx e r Ht Hr Hs) as [Hu Hv].
    by apply (phase_reports_exists net2 tasks run1.1 i idx e).
  - intros Hall.
    assert (run2 = (run1.1, replicate (length tasks) (true, EXISTS))) as ->.
    { apply phase_all_exist. apply Forall_lookup. intros i [idx e] Ht.
      assert (i < length run1.2)%nat as Hi.
      { unfold run1. rewrite phase_length. by eapply lookup_lt_Some. }
      apply lookup_lt_is_Some in Hi as [r Hr].
      assert (r.1 = true) as Hs by by eapply (Forall_lookup_1 _ _ _ _ Hall).
      exact (phase_success_valid net1 tasks w0 i idx e r Ht Hr Hs). }
    done.
Qed.

Lemma resumability_witness :
  let net := net_script [Replied 200 5000; Replied 500 0; Replied 200 2048] in
  let run1 := download_phase net sample_tasks (World ∅ 0) in
  let run2 := download_phase (net_status 404) sample_tasks run1.1 in
  Forall (λ r, r.1 = true) run1.2
  ∧ fetches run1.1 = 3
  ∧ fetches run2.1 = fetches run1.1
  ∧ run2.2 = [(true, EXISTS); (true, EXISTS)].
Proof.
  intros net run1 run2.
  assert (Forall (λ r : result, r.1 = true) run1.2) as Hall
    by (vm_compute; repeat constructor).
  destruct (resumability net (net_status 404) sample_tasks (World ∅ 0))
    as (_ & _ & H2).
  destruct (H2 Hall) as (_ & Hf & Hr).
  split_and!; [exact Hall | reflexivity | exact Hf | exact Hr].
Defined.

(** C1 as stated fails: a task that failed in the first run is fetched
    again in the second run and is not reported as existing. *)
Lemma second_run_fetches_failed_task :
  let tasks := [(1, sample_entry)] in
  let run1 := download_phase (net_status 404) tasks (World ∅ 0) in
  let run2 := download_phase (net_status 404) tasks run1.1 in
  fetches run2.1 = fetches run1.1 + 3
  ∧ run2.2 = [(false, py "HTTP 404")]
  ∧ ¬ (fetches run2.1 = fetches run1.1
       ∧ Forall (λ r, r = (true, EXISTS)) run2.2).
Proof.
  split_and!; [vm_compute; reflexivity | vm_compute; reflexivity |].
  intros [Hf _]. vm_compute in Hf. discriminate.
Qed.

(** ** Sequence indices and file names *)

(** The submission loop calls the workers on the tasks of the batch. *)
Lemma submit_all_tasks (run : worker) (start_index i : N)
    (entries : list entry) (w : world) :
  (submit_all run start_index i entries w).1
  = run_tasks run (batch_tasks start_index i entries) w.
Proof.
  revert i w. induction entries as [|e rest IH]; intros i w; simpl; [done|].
  destruct (truthy (download_url e)); simpl.
  - destruct (run e (start_index + i) w) as [w1 outcome].
    specialize (IH (i + 1) w1).
    destruct (submit_all run start_index (i + 1) rest w1) as [[w2 fs] n].
    simpl in IH. by rewrite <- IH.
  - specialize (IH (i + 1) w).
    by destruct (submit_all run start_index (i + 1) rest w) as [[w2 fs] n].
Qed.


Lemma batch_tasks_index (start_index i0 : N) (entries : list entry)
    (idx : N) (e : entry) :
  (idx, e) ∈ batch_tasks start_index i0 entries →
  ∃ i, entries !! i = Some e ∧ idx = start_index + i0 + N.of_nat i.
Proof.
  revert i0. induction entries as [|e0 rest IH]; intros i0 Hin; simpl in *.
  - by apply elem_of_nil in Hin.
  - assert ((idx, e) ∈ batch_tasks start_index (i0 + 1) rest →
            ∃ i, (e0 :: rest) !! i = Some e
                 ∧ idx = start_index + i0 + N.of_nat i) as Hrest.
    { intros H. destruct (IH _ H) as (i & Hi & ->). exists (S i).
      split; [done | lia]. }
    destruct (truthy (download_url e0)); [|auto].
    apply elem_of_cons in Hin as [[= -> ->]|Hin]; [|auto].
    exists 0%nat. split; [done | lia].
Qed.


(** A success that comes out of the retry loop names the target file. *)
Lemma retry_loop_message (net : transport) (url filename : str)
    (attempts : list N) (w : world) (message : str) :
  (retry_loop net url filename attempts w).2 = (true, message) →
  message = filename.
Proof.
  revert w. induction attempts as [|a rest IH]; intros w; simpl.
  - unfold final_check. destruct (valid_file w _); by intros [= <-].
  - destruct (try_fetch net url filename w) as [w' [r| |code|msg]] eqn:E.
    + apply try_fetch_returned in E as [-> _]. by intros [= <-].
    + apply IH.
    + destruct (a <? 2); [apply IH|].
      unfold final_check. destruct (valid_file w' _); by intros [= <-].
    + destruct (a <? 2); [apply IH|].
      unfold final_check. destruct (valid_file w' _); by intros [= <-].
Qed.








Example page_three_indices :
  batch_tasks (page_start_idx 3) 0
    [Entry (py "No file") [] [] [] [] [] [] []; sample_entry]
  = [(22, sample_entry)].
Proof. reflexivity. Qed.

(** The position is the one in the batch of new entries: an entry that
    follows a row already seen on an earlier page moves up. *)
Example index_after_duplicate_row :
  let a := Entry (py "A") [] (py "/media/1/download") [] [] [] [] [] in
  let b := Entry (py "B") [] (py "/media/2/download") [] [] [] [] [] in
  let '(st1, _) := filter_new initial_state [a] in
  let '(_, new_entries) := filter_new st1 [a; b] in
  batch_tasks (page_start_idx 2) 0 new_entries = [(11, b)].
Proof. vm_compute. reflexivity. Qed.

(** ** Reconciliation matching *)

Lemma format_04d_four_digits (index : N) :
  index < 10000 → four_ascii_digits (format_04d index) = true.
Proof.
  intros Hlt.
  assert (forallb (λ n, four_ascii_digits (format_04d (N.of_nat n)))
            (seq 0 (N.to_nat 10000)) = true) as Hall
    by (vm_compute; reflexivity).
  rewrite forallb_forall in Hall.
  specialize (Hall (N.to_nat index)). rewrite N2Nat.id in Hall.
  apply Hall, in_seq. lia.
Qed.

Lemma ascii_is_decimal_unicode `{Unicode} (c : N) :
  ascii_is_decimal c = true → is_decimal c = true.
Proof.
  unfold ascii_is_decimal. intros Hc. apply andb_prop in Hc as [H1 H2].
  apply is_decimal_ascii; by apply N.leb_le.
Qed.

Lemma has_index_prefix_format `{Unicode} (index : N) (rest : str) :
  index < 10000 →
  has_index_prefix (format_04d index ++ py "_" ++ rest) = true
  ∧ drop 5 (format_04d index ++ py "_" ++ rest) = rest.
Proof.
  intros Hlt. pose proof (format_04d_four_digits index Hlt) as Hd.
  destruct (format_04d index) as [|a [|b [|c [|d [|x s]]]]]; try done.
  simpl in Hd. split; [|done].
  apply andb_prop in Hd as [Hd Hd4]. apply andb_prop in Hd as [Hd Hd3].
  apply andb_prop in Hd as [Hd1 Hd2].
  change (is_decimal a && is_decimal b && is_decimal c && is_decimal d
          && (95 =? underscore) = true).
  rewrite (ascii_is_decimal_unicode a Hd1), (ascii_is_decimal_unicode b Hd2),
    (ascii_is_decimal_unicode c Hd3), (ascii_is_decimal_unicode d Hd4).
  reflexivity.
Qed.

Lemma rfind_dot_pdf (body : str) (i : nat) :
  rfind_dot (body ++ py ".pdf") i = Some (i + length body)%nat.
Proof.
  revert i. induction body as [|c body IH]; intros i; simpl.
  - f_equal. lia.
  - rewrite IH. f_equal. lia.
Qed.

Lemma stem_pdf (body : str) :
  body ≠ [] → stem (body ++ py ".pdf") = body.
Proof.
  intros Hne. unfold stem. rewrite rfind_dot_pdf. simpl Nat.add.
  assert (0 < length body)%nat as Hpos by (destruct body; [done | simpl; lia]).
  rewrite length_app. change (length (py ".pdf")) with 4%nat.
  destruct ((0 <? length body) && (length body <? length body + 4 - 1))%nat
    eqn:E.
  - by rewrite take_app_length.
  - apply andb_false_iff in E as [E|E]; apply Nat.ltb_ge in E; lia.
Qed.

Lemma startswith_app (p s : str) : startswith (p ++ s) p = true.
Proof.
  induction p as [|a p IH]; simpl; [by destruct s|].
  rewrite N.eqb_refl. exact IH.
Qed.

Lemma endswith_app (body suffix : str) : endswith (body ++ suffix) suffix = true.
Proof. unfold endswith. rewrite reverse_app. apply startswith_app. Qed.

Lemma scanned_title_target `{Unicode} (index : N) (title : str) :
  index < 10000 →
  scanned_title (target_filename index title)
  = strip (lower (sanitize_filename title DEFAULT_NAME)).
Proof.
  intros Hlt. unfold scanned_title, target_filename.
  set (s := sanitize_filename title DEFAULT_NAME).
  replace (format_04d index ++ py "_" ++ s ++ py ".pdf")
    with ((format_04d index ++ py "_" ++ s) ++ py ".pdf")
    by by rewrite <- !app_assoc.
  rewrite stem_pdf.
  - by destruct (has_index_prefix_format index s Hlt) as [-> ->].
  - pose proof (format_04d_four_digits index Hlt) as Hd.
    by destruct (format_04d index).
Qed.

(** C7.  Reconciliation matching round-trips with the naming of the
    downloader.  For an index that prints in four digits, the file name
    the downloader gives to an entry, once it is among the names of the
    scanned folder, makes [title_exists] answer true for the title of the
    entry: the entry is not classified as missing. *)
Theorem reconciliation_roundtrip `{Unicode} (e : entry) (index : N)
    (names : list str) :
  index < 10000 →
  target_filename index (title e) ∈ names →
  title_exists (title e) (scan_existing_files (Some names)) = true.
Proof.
  intros Hlt Hin. unfold title_exists.
  rewrite decide_True; [done|].
  unfold scan_existing_files. apply elem_of_list_to_set.
  rewrite <- (scanned_title_target index (title e) Hlt).
  apply list_elem_of_fmap_2, list_elem_of_filter. split; [|done].
  unfold target_filename.
  replace (format_04d index ++ py "_"
           ++ sanitize_filename (title e) DEFAULT_NAME ++ py ".pdf")
    with ((format_04d index ++ py "_"
           ++ sanitize_filename (title e) DEFAULT_NAME) ++ py ".pdf")
    by by rewrite <- !app_assoc.
  apply endswith_app.
Qed.

Lemma reconciliation_roundtrip_witness :
  let e := Entry (py "Q&A: Labeling / Draft") [] (py "/media/9/download")
             [] [] [] [] [] in
  let names := [py "notes.txt"; target_filename 42 (title e)] in
  42 < 10000
  ∧ target_filename 42 (title e) ∈ names
  ∧ title_exists (H := ascii_unicode) (title e)
      (scan_existing_files (H := ascii_unicode) (Some names)) = true.
Proof.
  intros e names.
  assert (42 < 10000) as Hlt by lia.
  assert (target_filename 42 (title e) ∈ names) as Hin
    by (apply list_elem_of_further, list_elem_of_here).
  split_and!; [exact Hlt | exact Hin |].
  exact (reconciliation_roundtrip (H := ascii_unicode) e 42 names Hlt Hin).
Defined.

Example scanned_title_example :
  scanned_title (H := ascii_unicode) (py "0042_Q&A_ Labeling _ Draft.pdf")
  = py "q&a_ labeling _ draft".
Proof. vm_compute. reflexivity. Qed.

(** An index of five digits is outside the pattern of the scanner: the
    prefix stays in the scanned title and the file is not recognised. *)
Example five_digit_index_not_recognised :
  title_exists (H := ascii_unicode) (py "Doc")
    (scan_existing_files (H := ascii_unicode)
       (Some [target_filename 10000 (py "Doc")]))
  = false.
Proof. vm_compute. reflexivity. Qed.

(** * Further properties of the code *)

(** ** [sanitize_filename]: shape of the result and idempotence *)

Lemma lstrip_starts_nonspace (s : str) : starts_nonspace (lstrip s).
Proof.
  induction s as [|c s IH]; simpl; [done|].
  destruct (isspace c) eqn:E; [done|]. simpl. done.
Qed.

Lemma lstrip_id (s : str) : starts_nonspace s → lstrip s = s.
Proof. destruct s as [|c s]; simpl; [done|]. by intros ->. Qed.

Lemma rstrip_starts_nonspace (s : str) :
  starts_nonspace s → starts_nonspace (rstrip s).
Proof.
  destruct s as [|c s]; simpl; [done|]. intros Hc.
  destruct (rstrip s); [by rewrite Hc|done].
Qed.

Lemma rstrip_idemp (s : str) : rstrip (rstrip s) = rstrip s.
Proof.
  induction s as [|c s IH]; simpl; [done|].
  destruct (rstrip s) as [|d r] eqn:E.
  - destruct (isspace c) eqn:Ec; simpl; [done|]. by rewrite Ec.
  - change (rstrip (c :: d :: r)) with
      (match rstrip (d :: r) with
       | [] => if isspace c then [] else [c]
       | x => c :: x
       end).
    by rewrite IH.
Qed.

Lemma strip_idemp (s : str) : strip (strip s) = strip s.
Proof.
  unfold strip at 1.
  rewrite lstrip_id.
  - unfold strip. apply rstrip_idemp.
  - unfold strip. apply rstrip_starts_nonspace, lstrip_starts_nonspace.
Qed.

Lemma re_sub_runs_from_absent (cls : N → bool) (r : N) (b : bool) (s : str) :
  Forall (λ c, cls c = false) s → re_sub_runs_from cls r b s = s.
Proof.
  intros H. revert b. induction H as [|c s Hc _ IH]; intros b; simpl; [done|].
  by rewrite Hc, IH.
Qed.

Lemma re_sub_runs_from_collapsed (b : bool) (s : str) :
  ws_collapsed s = true → (b = true → starts_nonspace s) →
  re_sub_runs_from isspace space b s = s.
Proof.
  revert b. induction s as [|c s IH]; intros b Hs Hb; simpl; [done|].
  simpl in Hs. apply andb_prop in Hs as [Hc Hs].
  destruct (isspace c) eqn:E.
  - destruct b; [specialize (Hb eq_refl); simpl in Hb; congruence|].
    apply andb_prop in Hc as [Hc Hn]. apply N.eqb_eq in Hc as ->.
    f_equal. apply IH; [done|]. intros _.
    destruct s as [|d s]; [done|]. simpl. by apply negb_true_iff.
  - f_equal. by apply IH.
Qed.

(** The facts about a sanitized name that the later proofs use. *)
Lemma sanitize_filename_shape (name : str) :
  let out := sanitize_filename name DEFAULT_NAME in
  (length out ≤ 150)%nat
  ∧ Forall (λ c, forbidden c = false) out
  ∧ ws_collapsed out = true
  ∧ truthy out = true
  ∧ strip out = out.
Proof.
  simpl. unfold sanitize_filename, py_or.
  set (n0 := if truthy name then strip name else DEFAULT_NAME).
  set (n2 := re_sub_runs isspace space (re_sub_runs forbidden underscore n0)).
  destruct (truthy (strip (take 150 n2))) eqn:E.
  - split_and!; [| | |done|apply strip_idemp].
    + etrans; [apply strip_length|]. rewrite length_take. lia.
    + apply strip_Forall, Forall_take. unfold n2, re_sub_runs.
      apply re_sub_runs_from_Forall; [done|].
      by apply re_sub_runs_from_class.
    + apply ws_collapsed_strip, ws_collapsed_take. unfold n2, re_sub_runs.
      apply ws_collapsed_sub_from.
  - split_and!; [vm_compute; lia | by repeat constructor | done..].
Qed.

(** The name of a file is never empty and neither begins nor ends with
    whitespace, whatever the title was. *)
Theorem sanitize_filename_nonempty_stripped (name : str) :
  let out := sanitize_filename name DEFAULT_NAME in
  out ≠ [] ∧ lstrip out = out ∧ rstrip out = out.
Proof.
  destruct (sanitize_filename_shape name) as (_ & _ & _ & Ht & Hs).
  simpl in *. set (out := sanitize_filename name DEFAULT_NAME) in *.
  split_and!.
  - by destruct out.
  - rewrite <- Hs. unfold strip.
    apply lstrip_id, rstrip_starts_nonspace, lstrip_starts_nonspace.
  - rewrite <- Hs. unfold strip. apply rstrip_idemp.
Qed.

(** Sanitizing a sanitized name changes nothing. *)
Theorem sanitize_filename_idempotent (name : str) :
  sanitize_filename (sanitize_filename name DEFAULT_NAME) DEFAULT_NAME
  = sanitize_filename name DEFAULT_NAME.
Proof.
  destruct (sanitize_filename_shape name) as (Hlen & Hf & Hw & Ht & Hs).
  simpl in *. set (out := sanitize_filename name DEFAULT_NAME) in *.
  unfold sanitize_filename at 1. rewrite Ht, Hs. unfold re_sub_runs.
  rewrite (re_sub_runs_from_absent forbidden) by done.
  rewrite re_sub_runs_from_collapsed by done.
  rewrite take_ge by done. rewrite Hs. unfold py_or. by rewrite Ht.
Qed.

(** ** File names tell the indices apart *)

Lemma uint_chars_inj (u v : Decimal.uint) :
  uint_chars u = uint_chars v → u = v.
Proof.
  revert v. induction u as [|u IH|u IH|u IH|u IH|u IH|u IH|u IH|u IH|u IH|u IH];
    intros [|v|v|v|v|v|v|v|v|v|v]; simpl; intros H; try done;
    injection H as H; f_equal; by apply IH.
Qed.

Lemma uint_chars_no_underscore (u : Decimal.uint) :
  Forall (λ c, c ≠ underscore) (uint_chars u).
Proof.
  induction u; simpl; constructor; try done.
Qed.

Lemma uint_chars_zeros (k : nat) (u : Decimal.uint) :
  replicate k 48 ++ uint_chars u = uint_chars (Nat.iter k Decimal.D0 u).
Proof. induction k as [|k IH]; simpl; [done|]. by rewrite IH. Qed.

Lemma of_uint_zeros (k : nat) (u : Decimal.uint) :
  N.of_uint (Nat.iter k Decimal.D0 u) = N.of_uint u.
Proof. induction k as [|k IH]; simpl; [done|]. exact IH. Qed.

Lemma format_04d_inj (i j : N) : format_04d i = format_04d j → i = j.
Proof.
  unfold format_04d, decimal. rewrite !uint_chars_zeros. intros H.
  apply uint_chars_inj in H. apply (f_equal N.of_uint) in H.
  by rewrite !of_uint_zeros, !Unsigned.of_to in H.
Qed.

Lemma format_04d_no_underscore (i : N) :
  Forall (λ c, c ≠ underscore) (format_04d i).
Proof.
  unfold format_04d, decimal. rewrite uint_chars_zeros.
  apply uint_chars_no_underscore.
Qed.

(** Two strings cut at their first underscore. *)
Lemma split_at_underscore (a b x y : str) :
  Forall (λ c, c ≠ underscore) a → Forall (λ c, c ≠ underscore) b →
  a ++ underscore :: x = b ++ underscore :: y → a = b ∧ x = y.
Proof.
  intros Ha. revert b. induction Ha as [|c a Hc Ha IH]; intros b Hb H.
  - destruct Hb as [|d b Hd Hb]; simpl in H; [by injection H|].
    injection H as H1 _. congruence.
  - destruct Hb as [|d b Hd Hb]; simpl in H.
    + injection H as H1 _. congruence.
    + injection H as H1 H2. destruct (IH b Hb H2) as [-> ->].
      by rewrite H1.
Qed.

Lemma target_filename_index (i j : N) (t t' : str) :
  target_filename i t = target_filename j t' → i = j.
Proof.
  unfold target_filename. intros H.
  apply (split_at_underscore (format_04d i) (format_04d j)) in H
    as [Hi _]; [|apply format_04d_no_underscore..].
  by apply format_04d_inj.
Qed.

(** The file name of a task determines its index and the sanitized title:
    tasks with different indices never write the same file. *)
Theorem target_filename_injective (i j : N) (t t' : str) :
  target_filename i t = target_filename j t' →
  i = j
  ∧ sanitize_filename t DEFAULT_NAME = sanitize_filename t' DEFAULT_NAME.
Proof.
  unfold target_filename. intros H.
  apply (split_at_underscore (format_04d i) (format_04d j)) in H
    as [Hi Hs]; [|apply format_04d_no_underscore..].
  split; [by apply format_04d_inj|]. by apply app_inv_tail in Hs.
Qed.

Lemma target_filename_injective_witness :
  target_filename 7 (py " Doc ") = target_filename 7 (py "Doc")
  ∧ 7 = 7
  ∧ sanitize_filename (py " Doc ") DEFAULT_NAME
    = sanitize_filename (py "Doc") DEFAULT_NAME.
Proof.
  assert (target_filename 7 (py " Doc ") = target_filename 7 (py "Doc")) as Heq
    by reflexivity.
  destruct (target_filename_injective 7 7 (py " Doc ") (py "Doc") Heq)
    as [Hi Hs].
  split_and!; [exact Heq | exact Hi | exact Hs].
Defined.

Lemma batch_tasks_lower_bound (start_index i0 idx : N) (entries : list entry)
    (e : entry) :
  (idx, e) ∈ batch_tasks start_index i0 entries → start_index + i0 ≤ idx.
Proof.
  intros H. destruct (batch_tasks_index _ _ _ _ _ H) as (i & _ & ->). lia.
Qed.

Lemma batch_tasks_indices_NoDup (start_index i0 : N) (entries : list entry) :
  NoDup (fst <$> batch_tasks start_index i0 entries).
Proof.
  revert i0. induction entries as [|e rest IH]; intros i0; simpl.
  - constructor.
  - destruct (truthy (download_url e)); [|apply IH].
    simpl. constructor; [|apply IH].
    intros Hin. apply list_elem_of_fmap in Hin as ([idx e'] & Heq & Hin).
    simpl in Heq. subst idx.
    apply batch_tasks_lower_bound in Hin. lia.
Qed.

(** No two tasks of a batch have the same target file. *)
Theorem batch_targets_distinct (start_index : N) (entries : list entry) :
  NoDup ((λ t, target_filename t.1 (title t.2))
         <$> batch_tasks start_index 0 entries).
Proof.
  pose proof (batch_tasks_indices_NoDup start_index 0 entries) as Hnd.
  induction (batch_tasks start_index 0 entries) as [|[idx e] l IH];
    simpl in *; [constructor|].
  apply NoDup_cons in Hnd as [Hnot Hnd]. constructor; [|by apply IH].
  intros Hin. apply list_elem_of_fmap in Hin as ([idx' e'] & Heq & Hin).
  simpl in Heq. apply target_filename_index in Heq as ->.
  apply Hnot, list_elem_of_fmap. by exists (idx', e').
Qed.

(** ** The scrape loop of [main] *)

Lemma collect_table_rows_fast_ok `{Unicode} (drv : driver) :
  collect_table_rows_fast drv
  = Ok (match drv with Ok rows => omap row_entry rows | Raise => [] end).
Proof.
  unfold collect_table_rows_fast.
  unfold try_except at 1. unfold seq_, find_rows.
  destruct drv as [rows|]; simpl; [|done].
  by rewrite for_rows_guarded.
Qed.

Lemma filter_new_collects (entries : list entry) (st : run_state) :
  all_entries (filter_new st entries).1
  = all_entries st ++ (filter_new st entries).2.
Proof.
  revert st. induction entries as [|e rest IH]; intros st; simpl.
  - by rewrite app_nil_r.
  - unfold observe. case_decide; simpl.
    + specialize (IH st). by destruct (filter_new st rest).
    + specialize (IH (RunState (all_entries st ++ [e])
                        ({[dedupe_key e]} ∪ seen_titles st))).
      destruct (filter_new _ rest) as [st2 new_entries]. simpl in *.
      by rewrite IH, <- app_assoc.
Qed.

Lemma batch_total (run : worker) (as_completed : completion)
    (entries : list entry) (start_index : N) (w : world) :
  (∀ futures, as_completed futures ≡ₚ futures) →
  results_sum
    (download_batch_parallel run as_completed entries start_index w).2
  = N.of_nat (length entries).
Proof.
  intros Hperm. unfold download_batch_parallel, results_sum.
  pose proof (submit_all_counts run start_index 0 entries w) as Hc.
  destruct (submit_all run start_index 0 entries w) as [[w' futures] nskip].
  destruct Hc as [_ Hlen]. simpl.
  destruct (account_fold (as_completed futures) (Results 0 nskip 0))
    as (Hd & Hs & Hf).
  simpl in Hd, Hs, Hf. rewrite Hd, Hs, Hf.
  rewrite !(charged_perm _ _ _ (Hperm futures)).
  pose proof (charged_total futures). lia.
Qed.

Lemma scrape_page_ok (run : worker) (as_completed : completion)
    (no_download : bool) (page_num : N) (entries : list entry)
    (st : run_state) (w : world) (total : results) :
  (∀ futures, as_completed futures ≡ₚ futures) →
  collection_ok st →
  (no_download = false →
   results_sum total = N.of_nat (length (all_entries st))) →
  let '(st', _, res) :=
    scrape_page run as_completed no_download page_num entries st w in
  collection_ok st'
  ∧ all_entries st `prefix_of` all_entries st'
  ∧ (no_download = false →
     results_sum (match res with
                  | Some r => add_results total r
                  | None => total
                  end)
     = N.of_nat (length (all_entries st'))).
Proof.
  intros Hperm Hok Htot. unfold scrape_page.
  pose proof (filter_new_ok entries st Hok) as Hok'.
  pose proof (filter_new_collects entries st) as Hall.
  destruct (filter_new st entries) as [st' new_entries]. simpl in *.
  destruct no_download; simpl.
  - split_and!; [done | rewrite Hall; by apply prefix_app_r | done].
  - case_bool_decide as Hne; simpl.
    + pose proof (batch_total run as_completed new_entries
                    (page_start_idx page_num) w Hperm) as Hb.
      destruct (download_batch_parallel _ _ _ _ _) as [w' res]. simpl in Hb.
      split_and!; [done | rewrite Hall; by apply prefix_app_r |].
      intros _. specialize (Htot eq_refl).
      unfold results_sum, add_results in *. simpl.
      rewrite Hall, length_app. lia.
    + split_and!; [done | rewrite Hall; by apply prefix_app_r |].
      intros _. specialize (Htot eq_refl).
      assert (new_entries = []) as -> by by destruct new_entries.
      by rewrite Hall, app_nil_r.
Qed.

Lemma scrape_loop_ok `{Unicode} {S} (eng : engine S) (net : transport)
    (as_completed : completion) (no_download : bool) (start_page : N)
    (pages : list N) (st : scrape_state S) :
  (∀ futures, as_completed futures ≡ₚ futures) →
  scrape_ok no_download st →
  ∃ st', scrape_loop eng net as_completed no_download start_page pages st
         = Ok st'
         ∧ scrape_ok no_download st'.
Proof.
  intros Hperm. revert st. induction pages as [|page_num rest IH];
    intros st Hok; simpl; [by eexists|].
  destruct (if start_page <? page_num then click_next_fast eng (browser st)
            else (browser st, true)) as [s ok].
  destruct ok; simpl; [|by eexists].
  rewrite collect_table_rows_fast_ok. simpl.
  set (entries := match rows eng s with
                  | Ok rs => omap row_entry rs
                  | Raise => []
                  end).
  destruct Hok as (Hc & Ht & Hs).
  pose proof (scrape_page_ok (session_worker net) as_completed no_download
                page_num entries (collected st) (disk st) (totals st)
                Hperm Hc Ht) as Hp.
  destruct (scrape_page _ _ _ _ _ _ _) as [[run' w'] res].
  destruct Hp as (Hc' & Hpre & Ht').
  apply IH. split_and!; simpl; [done..|].
  destruct (page_num mod 10 =? 0).
  - by exists (all_entries run').
  - destruct (snapshot st) as [table|]; [|done].
    destruct Hs as (saved & -> & Hsaved). exists saved.
    split; [done | by etrans].
Qed.

(** The scrape loop and its checkpoints.  Whatever the engine shows and
    the network answers, the loop ends without an exception; when it ends,
    after any number of pages, the collection holds no (title, date) key
    twice, the totals of downloaded, skipped and failed tasks add up to
    the number of collected entries if downloads are on, and the last
    checkpoint, if one was written, holds the rows of a prefix of the
    collection: an interruption loses only what was collected since. *)
Theorem scrape_loop_invariants `{Unicode} {S} (eng : engine S)
    (net : transport) (as_completed : completion) (no_download : bool)
    (start_page : N) (pages : list N) (s : S) (w : world) :
  (∀ futures, as_completed futures ≡ₚ futures) →
  ∃ st,
    scrape_loop eng net as_completed no_download start_page pages
      (Scrape s initial_state w (Results 0 0 0) None) = Ok st
    ∧ NoDup (dedupe_key <$> all_entries (collected st))
    ∧ (no_download = false →
       downloaded (totals st) + skipped (totals st) + failed (totals st)
       = N.of_nat (length (all_entries (collected st))))
    ∧ match snapshot st with
      | None => True
      | Some table =>
          ∃ saved, table = save_to_csv saved
                   ∧ saved `prefix_of` all_entries (collected st)
      end.
Proof.
  intros Hperm.
  destruct (scrape_loop_ok eng net as_completed no_download start_page pages
              (Scrape s initial_state w (Results 0 0 0) None) Hperm)
    as (st & Hst & (Hc & Ht & Hs)).
  { split_and!; simpl; [|done..]. split; simpl; [constructor|].
    intros e He. by apply elem_of_nil in He. }
  exists st. split_and!; [done | apply Hc | exact Ht | exact Hs].
Qed.

(** [main] over a validated range ends with a snapshot of the whole
    collection, one data row for each collected entry. *)
Theorem main_scrape_final_snapshot `{Unicode} {S} (eng : engine S)
    (net : transport) (as_completed : completion) (no_download : bool)
    (start_page end_page : N) (s : S) (w : world) :
  (∀ futures, as_completed futures ≡ₚ futures) →
  ∃ st,
    main_scrape eng net as_completed no_download start_page end_page s w
    = Ok st
    ∧ snapshot st = Some (save_to_csv (all_entries (collected st)))
    ∧ length (save_to_csv (all_entries (collected st)))
      = Datatypes.S (length (all_entries (collected st)))
    ∧ (no_download = false →
       downloaded (totals st) + skipped (totals st) + failed (totals st)
       = N.of_nat (length (all_entries (collected st)))).
Proof.
  intros Hperm. unfold main_scrape.
  set (s0 := if 1 <? start_page
             then (navigate_sequential_fast eng start_page s).1 else s).
  destruct (scrape_loop_ok eng net as_completed no_download start_page
              (page_range start_page end_page)
              (Scrape s0 initial_state w (Results 0 0 0) None) Hperm)
    as (st & Hst & (Hc & Ht & Hs)).
  { split_and!; simpl; [|done..]. split; simpl; [constructor|].
    intros e He. by apply elem_of_nil in He. }
  rewrite Hst. simpl. eexists. split_and!; [done | done | | exact Ht].
  unfold save_to_csv. simpl. by rewrite length_imap.
Qed.

Lemma scrape_loop_invariants_witness :
  let eng := simple_pager 3 (λ page,
               Ok [readable_row [py "1"; py "Doc"]
                     [(py "https://www.fda.gov/media/1/download", py "PDF")]]) in
  (∀ futures : list future, reverse futures ≡ₚ futures)
  ∧ ∃ st,
      scrape_loop (H := ascii_unicode) eng (net_status 200) reverse false 1
        [1; 2; 3] (Scrape 1 initial_state (World ∅ 0) (Results 0 0 0) None)
      = Ok st
      ∧ NoDup (dedupe_key <$> all_entries (collected st))
      ∧ downloaded (totals st) + skipped (totals st) + failed (totals st)
        = N.of_nat (length (all_entries (collected st))).
Proof.
  intros eng.
  assert (∀ futures : list future, reverse futures ≡ₚ futures) as Hperm
    by (intros futures; apply reverse_Permutation).
  split; [exact Hperm|].
  destruct (scrape_loop_invariants (H := ascii_unicode) eng (net_status 200)
              reverse false 1 [1; 2; 3] 1 (World ∅ 0) Hperm)
    as (st & Hst & Hnd & Ht & _).
  exists st. split_and!; [exact Hst | exact Hnd | exact (Ht eq_refl)].
Defined.

Lemma main_scrape_final_snapshot_witness :
  let eng := simple_pager 3 (λ page,
               Ok [readable_row [py "1"; py "Doc"]
                     [(py "https://www.fda.gov/media/1/download", py "PDF")]]) in
  (∀ futures : list future, reverse futures ≡ₚ futures)
  ∧ ∃ st,
      main_scrape (H := ascii_unicode) eng (net_status 200) reverse false 2 3
        1 (World ∅ 0) = Ok st
      ∧ snapshot st = Some (save_to_csv (all_entries (collected st))).
Proof.
  intros eng.
  assert (∀ futures : list future, reverse futures ≡ₚ futures) as Hperm
    by (intros futures; apply reverse_Permutation).
  split; [exact Hperm|].
  destruct (main_scrape_final_snapshot (H := ascii_unicode) eng
              (net_status 200) reverse false 2 3 1 (World ∅ 0) Hperm)
    as (st & Hst & Hs & _).
  exists st. split; [exact Hst | exact Hs].
Defined.

(** ** Page ranges and indices *)

(** The validated range lies within the catalog, and the loop visits its
    pages in increasing order, each once. *)
Theorem validate_range_bounds (start_page end_page : Z) (a b : N) :
  validate_range start_page end_page = Some (a, b) →
  1 ≤ a ∧ a ≤ b ∧ b ≤ TOTAL_PAGES
  ∧ length (page_range a b) = N.to_nat (b - a + 1)
  ∧ ∀ k p, page_range a b !! k = Some p → p = a + N.of_nat k ∧ p ≤ b.
Proof.
  unfold validate_range, TOTAL_PAGES. change (Z.of_N 280) with 280%Z.
  destruct (Z.min 280 end_page <? Z.max 1 start_page)%Z eqn:E; [done|].
  apply Z.ltb_ge in E. intros [= <- <-].
  split_and!; try lia.
  - unfold page_range. rewrite length_fmap, length_seq. lia.
  - intros k p Hk. unfold page_range in Hk.
    rewrite list_lookup_fmap in Hk.
    destruct (seq 0 _ !! k) as [k'|] eqn:Es; [|done].
    apply lookup_seq in Es as [-> Hlt]. injection Hk as <-. simpl. lia.
Qed.

Lemma validate_range_bounds_witness :
  validate_range (-5) 1000 = Some (1, 280)
  ∧ 1 ≤ 1 ∧ 1 ≤ 280 ∧ 280 ≤ TOTAL_PAGES
  ∧ length (page_range 1 280) = N.to_nat (280 - 1 + 1).
Proof.
  assert (validate_range (-5) 1000 = Some (1, 280)) as Hv by reflexivity.
  destruct (validate_range_bounds (-5) 1000 1 280 Hv)
    as (H1 & H2 & H3 & H4 & _).
  split_and!; [exact Hv | exact H1 | exact H2 | exact H3 | exact H4].
Defined.

(** On the pages of the catalog, with batches of at most [ITEMS_PER_PAGE]
    entries, every index prints in four digits and a file name belongs to
    one page and one position only. *)
Theorem page_indices_distinct (p p' i i' : N) (t t' : str) :
  1 ≤ p → p ≤ TOTAL_PAGES → 1 ≤ p' → p' ≤ TOTAL_PAGES →
  i < ITEMS_PER_PAGE → i' < ITEMS_PER_PAGE →
  page_start_idx p + i < 10000
  ∧ length (format_04d (page_start_idx p + i)) = 4%nat
  ∧ (target_filename (page_start_idx p + i) t
     = target_filename (page_start_idx p' + i') t' →
     p = p' ∧ i = i').
Proof.
  unfold TOTAL_PAGES, ITEMS_PER_PAGE, page_start_idx.
  intros Hp Hpm Hp' Hpm' Hi Hi'.
  assert ((p - 1) * 10 + 1 + i < 10000) as Hlt by lia.
  split_and!; [done | |].
  - pose proof (format_04d_four_digits _ Hlt) as Hd.
    by destruct (format_04d _) as [|? [|? [|? [|? [|? ?]]]]].
  - intros Heq. apply target_filename_index in Heq.
    unfold ITEMS_PER_PAGE in Heq. lia.
Qed.

Lemma page_indices_distinct_witness :
  1 ≤ 3 ∧ 3 ≤ TOTAL_PAGES ∧ 4 < ITEMS_PER_PAGE
  ∧ page_start_idx 3 + 4 < 10000
  ∧ length (format_04d (page_start_idx 3 + 4)) = 4%nat.
Proof.
  assert (1 ≤ 3) as H1 by lia.
  assert (3 ≤ TOTAL_PAGES) as H2 by (unfold TOTAL_PAGES; lia).
  assert (4 < ITEMS_PER_PAGE) as H3 by (unfold ITEMS_PER_PAGE; lia).
  destruct (page_indices_distinct 3 3 4 4 (py "a") (py "b") H1 H2 H1 H2 H3 H3)
    as (Ha & Hb & _).
  split_and!; [exact H1 | exact H2 | exact H3 | exact Ha | exact Hb].
Defined.

(** With an eleventh entry in a batch the index of the next page is
    reached: the same title would go to the same file. *)
Example eleventh_entry_collides :
  target_filename (page_start_idx 1 + 10) (py "Doc")
  = target_filename (page_start_idx 2 + 0) (py "Doc").
Proof. reflexivity. Qed.

(** ** Navigation on a paged table *)

Section Pager.

(** The table has [total] pages and every state of the engine shows one of
    them.  The first button leads to page 1 and is only missing there; the
    next button advances by one page and is missing on the last page. *)
Context {S : Type} (eng : engine S) (page_of : S → N) (total : N).
Hypothesis some_page : 1 ≤ total.
Hypothesis first_resets : ∀ s, page_of (click_first eng s).1 = 1.
Hypothesis next_advances :
  ∀ s, page_of s < total →
       (click_next eng s).2 = true
       ∧ page_of (click_next eng s).1 = page_of s + 1.
Hypothesis next_stops : ∀ s, total ≤ page_of s → (click_next eng s).2 = false.

Lemma click_next_times_reaches (n : nat) (s : S) :
  page_of s + N.of_nat n ≤ total →
  (click_next_times eng n s).2 = true
  ∧ page_of (click_next_times eng n s).1 = page_of s + N.of_nat n.
Proof.
  revert s. induction n as [|n IH]; intros s Hle; simpl.
  - split; [done | lia].
  - destruct (next_advances s) as [Hok Hp]; [lia|].
    destruct (click_next eng s) as [s' ok]. simpl in *. subst ok.
    destruct (IH s') as [H1 H2]; [lia|]. split; [done | lia].
Qed.

Lemma click_next_times_stops (n : nat) (s : S) :
  page_of s ≤ total → total < page_of s + N.of_nat n →
  (click_next_times eng n s).2 = false.
Proof.
  revert s. induction n as [|n IH]; intros s Hle Hgt; simpl; [lia|].
  destruct (decide (page_of s < total)) as [Hlt|Hge].
  - destruct (next_advances s Hlt) as [Hok Hp].
    destruct (click_next eng s) as [s' ok]. simpl in *. subst ok.
    apply IH; lia.
  - pose proof (next_stops s) as Hstop.
    destruct (click_next eng s) as [s' ok]. simpl in *.
    rewrite Hstop by lia. done.
Qed.

(** [navigate_sequential_fast] reports success exactly when the target
    page exists, and then the engine shows that page, from whichever page
    the navigation started. *)
Theorem navigate_sequential_fast_reaches (target_page : N) (s : S) :
  1 ≤ target_page →
  (navigate_sequential_fast eng target_page s).2
  = bool_decide (target_page ≤ total)
  ∧ (target_page ≤ total →
     page_of (navigate_sequential_fast eng target_page s).1 = target_page).
Proof.
  intros Ht. unfold navigate_sequential_fast.
  pose proof (first_resets s) as H1.
  destruct (click_first eng s) as [s1 ok1]. simpl in H1.
  case_bool_decide as Hle.
  - destruct (click_next_times_reaches (N.to_nat (target_page - 1)) s1)
      as [Hok Hp]; [lia|].
    split; [done|]. intros _. lia.
  - split; [|lia]. apply click_next_times_stops; lia.
Qed.

(** [navigate_to_page_direct] falls back on the sequential navigation when
    neither the page input nor the page link can be used, and then reaches
    every existing page. *)
Theorem navigate_to_page_direct_fallback (page_num : N) (s : S) :
  1 ≤ page_num →
  (enter_page eng page_num s).2 = false →
  (click_page_link eng page_num (enter_page eng page_num s).1).2 = false →
  (navigate_to_page_direct eng page_num s).2
  = bool_decide (page_num ≤ total)
  ∧ (page_num ≤ total →
     page_of (navigate_to_page_direct eng page_num s).1 = page_num).
Proof.
  intros Hp H1 H2. unfold navigate_to_page_direct.
  destruct (enter_page eng page_num s) as [s1 ok1]. simpl in *. subst ok1.
  destruct (click_page_link eng page_num s1) as [s2 ok2]. simpl in *.
  subst ok2. unfold navigate_sequential_fast.
  pose proof (first_resets s2) as Hfirst.
  destruct (click_first eng s2) as [s3 ok3]. simpl in Hfirst.
  case_bool_decide as Hle.
  - destruct (click_next_times_reaches (N.to_nat (page_num - 1)) s3)
      as [Hok Hpage]; [lia|].
    split; [done|]. intros _. lia.
  - split; [|lia]. apply click_next_times_stops; lia.
Qed.

End Pager.

Lemma simple_pager_first (total : N) (pages : N → driver) (s : N) :
  (click_first (simple_pager total pages) s).1 = 1.
Proof.
  simpl. destruct (s =? 1) eqn:E; [|done]. by apply N.eqb_eq in E.
Qed.

Lemma simple_pager_next (total : N) (pages : N → driver) (s : N) :
  s < total →
  (click_next (simple_pager total pages) s).2 = true
  ∧ (click_next (simple_pager total pages) s).1 = s + 1.
Proof. intros H. simpl. apply N.ltb_lt in H. by rewrite H. Qed.

Lemma simple_pager_last (total : N) (pages : N → driver) (s : N) :
  total ≤ s → (click_next (simple_pager total pages) s).2 = false.
Proof. intros H. simpl. apply N.ltb_ge in H. by rewrite H. Qed.

Lemma navigate_sequential_fast_reaches_witness :
  let eng := simple_pager 5 (λ _, Ok []) in
  1 ≤ 5 ∧ 1 ≤ 4
  ∧ (navigate_sequential_fast eng 4 2).2 = bool_decide (4 ≤ 5)
  ∧ (navigate_sequential_fast eng 4 2).1 = 4.
Proof.
  intros eng.
  assert (1 ≤ 5) as Htotal by lia.
  assert (1 ≤ 4) as Htarget by lia.
  destruct (navigate_sequential_fast_reaches eng (λ s, s) 5 Htotal
              (simple_pager_first 5 _) (simple_pager_next 5 _)
              (simple_pager_last 5 _) 4 2 Htarget) as [Hok Hpage].
  split_and!; [exact Htotal | exact Htarget | exact Hok |].
  apply Hpage. lia.
Defined.

Lemma navigate_to_page_direct_fallback_witness :
  let eng := simple_pager 5 (λ _, Ok []) in
  1 ≤ 5 ∧ 1 ≤ 7
  ∧ (enter_page eng 7 3).2 = false
  ∧ (click_page_link eng 7 (enter_page eng 7 3).1).2 = false
  ∧ (navigate_to_page_direct eng 7 3).2 = bool_decide (7 ≤ 5).
Proof.
  intros eng.
  assert (1 ≤ 5) as Htotal by lia.
  assert (1 ≤ 7) as Htarget by lia.
  assert ((enter_page eng 7 3).2 = false) as H1 by reflexivity.
  assert ((click_page_link eng 7 (enter_page eng 7 3).1).2 = false) as H2
    by reflexivity.
  destruct (navigate_to_page_direct_fallback eng (λ s, s) 5 Htotal
              (simple_pager_first 5 _) (simple_pager_next 5 _)
              (simple_pager_last 5 _) 7 3 Htarget H1 H2) as [Hok _].
  split_and!; [exact Htotal | exact Htarget | exact H1 | exact H2 | exact Hok].
Defined.

(** ** Bulk downloader: what a task and a batch leave alone *)





(** The bulk downloader retries every error status, a 404 included: three
    error answers in a row make three requests, leave the directory as it
    was, and end in the failure that names the last status. *)
Theorem bulk_download_gives_up (net : transport) (e : entry) (index : N)
    (w : world) (c1 c2 c3 : N) :
  truthy (download_url e) = true →
  valid_file w (target_filename index (title e)) = false →
  let url := absolute_url (download_url e) in
  status_of (net url (fetches w)) = Some c1 → is_error_status c1 = true →
  status_of (net url (fetches w + 1)) = Some c2 → is_error_status c2 = true →
  status_of (net url (fetches w + 1 + 1)) = Some c3 →
  is_error_status c3 = true →
  download_file_with_session net e index w
  = (World (files w) (fetches w + 1 + 1 + 1),
     (false, py "HTTP " ++ decimal c3)).
Proof.
  intros Hurl Hv url H1 E1 H2 E2 H3 E3. unfold download_file_with_session.
  rewrite Hurl, Hv. simpl negb. cbv iota. fold url. simpl.
  rewrite (try_fetch_error net url _ w c1 H1 E1). simpl.
  rewrite (try_fetch_error net url _ (count_fetch w) c2 H2 E2). simpl.
  rewrite (try_fetch_error net url _ (count_fetch (count_fetch w)) c3 H3 E3).
  simpl. unfold final_check.
  assert (valid_file (count_fetch (count_fetch (count_fetch w)))
            (target_filename index (title e)) = false) as -> by exact Hv.
  done.
Qed.

Lemma bulk_download_gives_up_witness :
  let w := World ∅ 0 in
  download_file_with_session (net_status 404) sample_entry 7 w
  = (World ∅ 3, (false, py "HTTP 404")).
Proof.
  intros w.
  exact (bulk_download_gives_up (net_status 404) sample_entry 7 w 404 404 404
           eq_refl eq_refl eq_refl eq_refl eq_refl eq_refl eq_refl eq_refl).
Defined.

(** ** Targeted retry: what [download_file] reports and touches *)

Lemma retry_attempt_success (net : transport) (url filename : str)
    (attempt : N) (w w' : world) (message : str) :
  retry_attempt net url filename attempt w = (w', inl (true, message)) →
  message = filename ∧ valid_file w' filename = true.
Proof.
  unfold retry_attempt.
  destruct (net url (fetches w)) as [code body|code written msg|msg].
  - destruct (code =? 200).
    + destruct (valid_file _ filename) eqn:E; [|done].
      intros [= <- <-]. done.
    + destruct (code =? 404); [done|]. by destruct (attempt =? 0).
  - destruct (code =? 200); [by destruct (attempt =? 0)|].
    destruct (code =? 404); [done|]. by destruct (attempt =? 0).
  - by destruct (attempt =? 0).
Qed.

Lemma retry_attempt_frame (net : transport) (url filename other : str)
    (attempt : N) (w : world) :
  other ≠ filename →
  files (retry_attempt net url filename attempt w).1 !! other
  = files w !! other.
Proof.
  intros Hne. unfold retry_attempt.
  destruct (net url (fetches w)) as [code body|code written msg|msg];
    repeat match goal with
           | |- context [if ?b then _ else _] => destruct b
           end; simpl;
    rewrite ?lookup_delete_ne, ?lookup_insert_ne by done; done.
Qed.

Lemma retry_attempts_success (net : transport) (url filename : str)
    (attempts : list N) (w : world) (message : str) :
  (retry_attempts net url filename attempts w).2 = (true, message) →
  message = filename
  ∧ valid_file (retry_attempts net url filename attempts w).1 filename = true.
Proof.
  revert w. induction attempts as [|a rest IH]; intros w; simpl; [done|].
  destruct (retry_attempt net url filename a w) as [w' [[ok m]|[]]] eqn:E.
  - simpl. intros [= -> ->]. by apply retry_attempt_success in E.
  - apply IH.
Qed.

Lemma retry_attempts_frame (net : transport) (url filename other : str)
    (attempts : list N) (w : world) :
  other ≠ filename →
  files (retry_attempts net url filename attempts w).1 !! other
  = files w !! other.
Proof.
  intros Hne. revert w. induction attempts as [|a rest IH]; intros w; simpl;
    [done|].
  pose proof (retry_attempt_frame net url filename other a w Hne) as Hf.
  destruct (retry_attempt net url filename a w) as [w' [r|[]]]; simpl in Hf;
    [done|]. by rewrite IH.
Qed.

(** [download_file] reports success only with a file above the minimum
    size at the target path, and whatever it reports, it leaves every
    other file as it was. *)
Theorem retry_download_sound (net : transport) (e : entry) (index : N)
    (w : world) :
  let filename := target_filename index (title e) in
  let out := download_file net e index w in
  (out.2.1 = true →
   truthy (download_url e) = true
   ∧ valid_file out.1 filename = true
   ∧ (out.2.2 = py "Exists" ∨ out.2.2 = filename))
  ∧ (∀ other, other ≠ filename → files out.1 !! other = files w !! other).
Proof.
  intros filename out. unfold out, download_file. fold filename.
  destruct (truthy (download_url e)); simpl negb; cbv iota; [|by split].
  destruct (valid_file w filename) eqn:Hv.
  - split; [|done]. intros _. split_and!; [done..|by left].
  - split.
    + intros Hs.
      destruct (retry_attempts net _ filename [0; 1] w) as [w' [ok m]] eqn:E.
      simpl in Hs. subst ok.
      pose proof (retry_attempts_success net
                    (absolute_url (download_url e)) filename [0; 1] w m)
        as Hr.
      rewrite E in Hr. destruct (Hr eq_refl) as [-> Hv'].
      split_and!; [done..|by right].
    + intros other Hne. by apply retry_attempts_frame.
Qed.

Lemma retry_download_sound_witness :
  let filename := target_filename 7 (title sample_entry) in
  let out := download_file (net_script [Replied 503 0; Replied 200 4096])
               sample_entry 7 (World ∅ 0) in
  out.2.1 = true ∧ valid_file out.1 filename = true.
Proof.
  intros filename out.
  assert (out.2.1 = true) as Hs by reflexivity.
  destruct (retry_download_sound (net_script [Replied 503 0; Replied 200 4096])
              sample_entry 7 (World ∅ 0)) as [Hsound _].
  destruct (Hsound Hs) as (_ & Hv & _).
  split; [exact Hs | exact Hv].
Defined.

(** Without a final check, a failure can leave a file behind that looks
    valid: the body broke off after 5000 bytes, then the server failed. *)
Example retry_failure_leaves_partial_file :
  download_file (net_script [Interrupted 200 5000 (py "reset"); Replied 500 0])
    sample_entry 7 (World ∅ 0)
  = (World {[ py "0007_Doc.pdf" := 5000 ]} 2, (false, py "HTTP 500")).
Proof. vm_compute. reflexivity. Qed.

(** ** The extractor of the reconciliation script *)

Lemma for_rows_retry_guarded (rows : list row) (entries : list entry) :
  for_rows (λ r, try_except (retry_row_body r) pass) rows entries
  = (entries ++ omap retry_row_entry rows, Ok ()).
Proof.
  revert entries. induction rows as [|r rows IH]; intros entries; simpl.
  - by rewrite app_nil_r.
  - unfold seq_, try_except, retry_row_body, retry_row_entry at 1, pass.
    destruct (retry_extract_row r) as [[e|]|]; simpl; rewrite IH; [|done..].
    by rewrite <- app_assoc.
Qed.

Lemma retry_scan_links_url_ok (links : list link) (e e' : entry) :
  url_ok e → for_fold retry_scan_link links e = Ok e' → url_ok e'.
Proof.
  revert e. induction links as [|l links IH]; intros e He; simpl.
  - by intros [= <-].
  - destruct (retry_scan_link e l) as [e1|] eqn:E1; simpl; [|done].
    apply IH. unfold retry_scan_link in E1.
    destruct (link_href l) as [h|]; simpl in E1; [|done].
    destruct (link_text l) as [t|]; simpl in E1; [|done].
    injection E1 as <-. unfold retry_classify_link, url_ok.
    destruct (is_download_href _) eqn:E; simpl; [by right|].
    by destruct (truthy (strip t) && negb (truthy (title e))).
Qed.

Lemma collect_table_rows_ok (drv : driver) :
  collect_table_rows drv
  = Ok (match drv with Ok rows => omap retry_row_entry rows | Raise => [] end).
Proof.
  unfold collect_table_rows.
  unfold try_except at 1. unfold seq_, find_rows.
  destruct drv as [rows|]; simpl; [|done].
  by rewrite for_rows_retry_guarded.
Qed.

Lemma retry_row_entry_downloadable (r : row) (e : entry) :
  retry_row_entry r = Some e →
  title e ≠ [] ∧ is_download_href (download_url e) = true.
Proof.
  unfold retry_row_entry, retry_extract_row. intros Hr.
  destruct (row_links r) as [links|]; simpl in Hr; [|done].
  destruct (for_fold retry_scan_link links blank_entry) as [e1|] eqn:E;
    simpl in Hr; [|done].
  destruct (truthy (title e1)) eqn:Ht; simpl in Hr; [|done].
  destruct (truthy (download_url e1)) eqn:Hu; simpl in Hr; [|done].
  injection Hr as <-. split; [by destruct (title e1)|].
  destruct (retry_scan_links_url_ok links blank_entry e1) as [Hnil|Hok];
    [by left | done | | done].
  by rewrite Hnil in Hu.
Qed.

(** [collect_table_rows] never raises, and every entry it returns has a
    title and a download URL that is a download reference: what the scan
    finds missing can always be requested. *)
Theorem retry_extractor_entries_downloadable (drv : driver) :
  ∃ entries,
    collect_table_rows drv = Ok entries
    ∧ entries = match drv with
                | Ok rows => omap retry_row_entry rows
                | Raise => []
                end
    ∧ Forall (λ e, title e ≠ [] ∧ is_download_href (download_url e) = true)
        entries.
Proof.
  rewrite collect_table_rows_ok. eexists. split_and!; [done..|].
  destruct drv as [rows|]; [|constructor].
  apply Forall_forall. intros e He.
  apply list_elem_of_omap in He as (r & _ & Hr).
  by apply (retry_row_entry_downloadable r).
Qed.

(** ** [title_exists]: the fuzzy match *)

Lemma startswith_nil (s : str) : startswith s [] = true.
Proof. by destruct s. Qed.

Lemma startswith_take (k : nat) (s : str) : startswith s (take k s) = true.
Proof.
  revert k. induction s as [|c s IH]; intros [|k]; simpl; try done.
  by rewrite N.eqb_refl, IH.
Qed.

Lemma title_exists_spec `{Unicode} (title : str) (existing_titles : gset str) :
  title_exists title existing_titles = true
  ↔ ∃ x, x ∈ existing_titles ∧ fuzzy_match (match_key title) x = true.
Proof.
  unfold title_exists. fold (match_key title). case_decide as Hin.
  - split; [|done]. intros _. exists (match_key title). split; [done|].
    unfold fuzzy_match. by rewrite startswith_take.
  - rewrite existsb_exists. split.
    + intros (x & Hx & Hm). exists x. split; [|done].
      by apply elem_of_elements, list_elem_of_In.
    + intros (x & Hx & Hm). exists x. split; [|done].
      by apply list_elem_of_In, elem_of_elements.
Qed.

(** [title_exists] is the prefix test alone: it answers true exactly when
    some existing title matches the key on the first 50 characters in one
    of the two directions; the test for equality adds nothing.  Hence a
    larger inventory never turns an existing title into a missing one. *)
Theorem title_exists_fuzzy `{Unicode} (title : str)
    (existing_titles more : gset str) :
  (title_exists title existing_titles = true
   ↔ ∃ x, x ∈ existing_titles ∧ fuzzy_match (match_key title) x = true)
  ∧ (title_exists title existing_titles = true →
     title_exists title (existing_titles ∪ more) = true).
Proof.
  split; [apply title_exists_spec|].
  rewrite !title_exists_spec. intros (x & Hx & Hm).
  exists x. split; [set_solver | done].
Qed.

(** A PDF whose name leaves nothing after the index prefix is cut off and
    the rest is stripped hides the whole catalog: every title is then
    reported as existing, and nothing is found missing. *)
Theorem empty_scanned_title_matches_all `{Unicode} (names : list str)
    (name title : str) :
  name ∈ names →
  endswith name (py ".pdf") = true →
  scanned_title name = [] →
  title_exists title (scan_existing_files (Some names)) = true.
Proof.
  intros Hin Hpdf Hempty. apply title_exists_spec. exists [].
  split.
  - unfold scan_existing_files. apply elem_of_list_to_set.
    rewrite <- Hempty. by apply list_elem_of_fmap_2, list_elem_of_filter.
  - unfold fuzzy_match. rewrite take_nil, startswith_nil.
    by rewrite orb_true_r.
Qed.

Lemma empty_scanned_title_matches_all_witness :
  let names := [py "0001_.pdf"] in
  py "0001_.pdf" ∈ names
  ∧ endswith (py "0001_.pdf") (py ".pdf") = true
  ∧ scanned_title (H := ascii_unicode) (py "0001_.pdf") = []
  ∧ title_exists (H := ascii_unicode) (py "Any guidance at all")
      (scan_existing_files (H := ascii_unicode) (Some names)) = true.
Proof.
  intros names.
  assert (py "0001_.pdf" ∈ names) as Hin by apply list_elem_of_here.
  assert (endswith (py "0001_.pdf") (py ".pdf") = true) as Hpdf
    by reflexivity.
  assert (scanned_title (H := ascii_unicode) (py "0001_.pdf") = []) as He
    by reflexivity.
  split_and!; [exact Hin | exact Hpdf | exact He |].
  exact (empty_scanned_title_matches_all (H := ascii_unicode) names
           (py "0001_.pdf") (py "Any guidance at all") Hin Hpdf He).
Defined.

Lemma title_exists_fuzzy_witness :
  let inventory : gset str := {[ py "guidance for industry" ]} in
  title_exists (H := ascii_unicode) (py "Guidance for Industry: Q&A")
    inventory = true
  ∧ title_exists (H := ascii_unicode) (py "Guidance for Industry: Q&A")
      (inventory ∪ {[ py "other" ]}) = true.
Proof.
  intros inventory.
  assert (title_exists (H := ascii_unicode) (py "Guidance for Industry: Q&A")
            inventory = true) as Hex by (vm_compute; reflexivity).
  split; [exact Hex|].
  exact (proj2 (title_exists_fuzzy (H := ascii_unicode)
                  (py "Guidance for Industry: Q&A") inventory
                  {[ py "other" ]}) Hex).
Defined.

(** ** The scan and the download loop of the reconciliation script *)

Lemma scan_catalog_ends `{Unicode} {S} (eng : engine S)
    (existing_titles : gset str) (fuel : nat) (acc : scan_result S) :
  (0 < fuel)%nat →
  SAFETY_LIMIT ≤ scan_page_num acc + N.of_nat fuel →
  Forall (missing_ok existing_titles) (missing_entries acc) →
  N.of_nat (length (missing_entries acc)) ≤ total_checked acc →
  ∃ res,
    scan_catalog eng existing_titles fuel acc = Ok (Some res)
    ∧ scan_page_num acc < scan_page_num res
    ∧ scan_page_num res ≤ N.max SAFETY_LIMIT (scan_page_num acc + 1)
    ∧ Forall (missing_ok existing_titles) (missing_entries res)
    ∧ N.of_nat (length (missing_entries res)) ≤ total_checked res.
Proof.
  revert acc. induction fuel as [|fuel IH]; intros acc Hpos Hfuel Hm Hc;
    [lia|]. simpl.
  rewrite collect_table_rows_ok. simpl.
  set (entries := match rows eng (scan_browser acc) with
                  | Ok rs => omap retry_row_entry rs
                  | Raise => []
                  end).
  set (page_missing :=
         filter (λ e, title_exists (title e) existing_titles = false) entries).
  assert (Forall (missing_ok existing_titles)
            (missing_entries acc ++ page_missing)) as Hm'.
  { apply Forall_app. split; [done|]. apply Forall_forall. intros e He.
    apply list_elem_of_filter in He as [Hex He]. split; [done|].
    unfold entries in He. destruct (rows eng (scan_browser acc)) as [rs|];
      [|by apply elem_of_nil in He].
    apply list_elem_of_omap in He as (r & _ & Hr).
    by apply (retry_row_entry_downloadable r). }
  assert (N.of_nat (length (missing_entries acc ++ page_missing))
          ≤ total_checked acc + N.of_nat (length entries)) as Hc'.
  { rewrite length_app.
    pose proof (length_filter
                  (λ e, title_exists (title e) existing_titles = false)
                  entries) as Hlen.
    fold page_missing in Hlen. lia. }
  unfold click_next_retry.
  destruct (click_next eng (scan_browser acc)) as [s ok].
  destruct ok; simpl.
  - destruct (SAFETY_LIMIT <=? scan_page_num acc + 1) eqn:E.
    + eexists. split; [done|]. simpl. split_and!; [lia | lia | done..].
    + apply N.leb_gt in E.
      destruct (IH (ScanResult s (scan_page_num acc + 1)
                      (missing_entries acc ++ page_missing)
                      (total_checked acc + N.of_nat (length entries))))
        as (res & Hres & Hlt & Hle & Hm'' & Hc''); simpl; [lia | lia | done..|].
      exists res. split; [done|]. simpl in *. split_and!; [lia | lia | done..].
  - eexists. split; [done|]. simpl. split_and!; [lia | lia | done..].
Qed.

(** The scan of the catalog ends within the safety limit of 280 pages,
    whatever the engine shows, and never raises.  Every entry it reports
    as missing has a title that no file matches and a download reference,
    and no more entries are missing than were checked. *)
Theorem scan_catalog_terminates `{Unicode} {S} (eng : engine S)
    (existing_titles : gset str) (s : S) :
  ∃ res,
    scan_catalog eng existing_titles (N.to_nat SAFETY_LIMIT)
      (ScanResult s 0 [] 0) = Ok (Some res)
    ∧ 1 ≤ scan_page_num res ∧ scan_page_num res ≤ SAFETY_LIMIT
    ∧ Forall (λ e, title_exists (title e) existing_titles = false
                   ∧ title e ≠ []
                   ∧ is_download_href (download_url e) = true)
        (missing_entries res)
    ∧ N.of_nat (length (missing_entries res)) ≤ total_checked res.
Proof.
  destruct (scan_catalog_ends eng existing_titles (N.to_nat SAFETY_LIMIT)
              (ScanResult s 0 [] 0))
    as (res & Hres & Hlt & Hle & Hm & Hc);
    cbn [scan_page_num missing_entries total_checked].
  - unfold SAFETY_LIMIT. lia.
  - unfold SAFETY_LIMIT. lia.
  - constructor.
  - cbn [length]. lia.
  - exists res. cbn [scan_page_num] in Hlt, Hle.
    unfold SAFETY_LIMIT in Hle |- * at 2.
    split_and!; [exact Hres | lia | lia | exact Hm | exact Hc].
Qed.

Lemma fetch_whole_effect (net : transport) (url filename : str) (w : world) :
  let '(w', saved) := fetch_whole net url filename w in
  fetches w' = fetches w + 1
  ∧ (∀ other, other ≠ filename → files w' !! other = files w !! other)
  ∧ (if saved then valid_file w' filename = true
     else files w' = files w).
Proof.
  unfold fetch_whole.
  destruct (net url (fetches w)) as [code body|code written msg|msg];
    [|done..].
  destruct ((code =? 200) && (MIN_SIZE <? body)) eqn:E; [|done].
  apply andb_prop in E as [_ E]. split_and!; [done | |].
  - intros other Hne. simpl. by rewrite lookup_insert_ne.
  - by rewrite valid_file_write.
Qed.

Lemma retry_downloads_effect {S} (refresh : S → exn S) (net : transport)
    (start_index i : N) (missing : list entry) (st st' : retry_state S) :
  retry_downloads refresh net start_index i missing st = Ok st' →
  (∀ filename, valid_file (retry_disk st) filename = true →
     files (retry_disk st') !! filename = files (retry_disk st) !! filename)
  ∧ (∀ filename size,
       files (retry_disk st') !! filename = Some size → size ≤ MIN_SIZE →
       files (retry_disk st) !! filename = Some size)
  ∧ fetches (retry_disk st') ≤ fetches (retry_disk st)
                               + N.of_nat (length missing)
  ∧ retry_downloaded st' + retry_failed st'
    ≤ retry_downloaded st + retry_failed st + N.of_nat (length missing).
Proof.
  revert i st. induction missing as [|e rest IH]; intros i st; simpl.
  - intros [= <-]. split_and!; [done | done | lia | lia].
  - destruct (truthy (download_url e)); simpl negb; cbv iota.
    + destruct (valid_file (retry_disk st) _) eqn:Hv.
      * intros Hr. destruct (IH _ _ Hr) as (H1 & H2 & H3 & H4).
        split_and!; [done | done | lia | lia].
      * set (filename := target_filename (start_index + i) (title e)) in *.
        destruct (if (i mod 50 =? 0) && (0 <? i)
                  then s ← refresh (retry_browser st);
                       Ok (RetryState s (retry_disk st) (retry_downloaded st)
                             (retry_failed st) (refreshes st + 1))
                  else Ok st) as [st1|] eqn:E1; simpl; [|done].
        assert (retry_disk st1 = retry_disk st
                ∧ retry_downloaded st1 = retry_downloaded st
                ∧ retry_failed st1 = retry_failed st) as (Hd & Hn & Hf).
        { destruct ((i mod 50 =? 0) && (0 <? i)); [|by injection E1 as <-].
          destruct (refresh (retry_browser st)) as [s|]; simpl in E1; [|done].
          by injection E1 as <-. }
        rewrite Hd, Hn, Hf.
        pose proof (fetch_whole_effect net (absolute_url (download_url e))
                      filename (retry_disk st)) as He.
        destruct (fetch_whole net _ filename (retry_disk st)) as [w saved].
        destruct He as (Hfetch & Hframe & Hsaved).
        intros Hr. destruct (IH _ _ Hr) as (H1 & H2 & H3 & H4).
        assert (∀ f, valid_file (retry_disk st) f = true →
                     files w !! f = files (retry_disk st) !! f) as Hkeep.
        { intros f Hf'. destruct saved; [|by rewrite Hsaved].
          apply Hframe. intros ->. congruence. }
        assert (∀ f size, files w !! f = Some size → size ≤ MIN_SIZE →
                          files (retry_disk st) !! f = Some size) as Hsmall.
        { intros f size Hs Hle. destruct saved; [|by rewrite Hsaved in Hs].
          destruct (decide (f = filename)) as [->|Hne].
          - unfold valid_file in Hsaved. rewrite Hs in Hsaved.
            apply N.ltb_lt in Hsaved. lia.
          - by rewrite Hframe in Hs. }
        destruct saved; simpl in *.
        -- split_and!; [| | lia | lia].
           ++ intros f Hf'. rewrite H1; [by apply Hkeep|].
              unfold valid_file in *. by rewrite Hkeep.
           ++ intros f size Hs Hle. apply Hsmall; [by apply H2 | done].
        -- split_and!; [| | lia | lia].
           ++ intros f Hf'. rewrite H1; [by apply Hkeep|].
              unfold valid_file in *. by rewrite Hkeep.
           ++ intros f size Hs Hle. apply Hsmall; [by apply H2 | done].
    + intros Hr. destruct (IH _ _ Hr) as (H1 & H2 & H3 & H4). simpl in *.
      split_and!; [done | done | lia | lia].
Qed.

Lemma retry_downloads_total {S} (refresh : S → exn S) (net : transport)
    (start_index i : N) (missing : list entry) (st : retry_state S) :
  (∀ s, ∃ s', refresh s = Ok s') →
  ∃ st', retry_downloads refresh net start_index i missing st = Ok st'.
Proof.
  intros Hrefresh. revert i st.
  induction missing as [|e rest IH]; intros i st; simpl; [by eexists|].
  destruct (truthy (download_url e)); simpl negb; cbv iota; [|apply IH].
  destruct (valid_file (retry_disk st) _); [apply IH|].
  destruct ((i mod 50 =? 0) && (0 <? i)); simpl.
  - destruct (Hrefresh (retry_browser st)) as [s' ->]. simpl.
    destruct (fetch_whole _ _ _ _) as [w saved]. apply IH.
  - destruct (fetch_whole _ _ _ _) as [w saved]. apply IH.
Qed.

(** The download loop of the reconciliation script.  If reloading the page
    for new cookies does not fail, the loop ends; it makes at most one
    request for each missing entry, counts each entry at most once as
    downloaded or failed, leaves every file that was above the minimum
    size as it was, and never leaves a new file that is not above it. *)
Theorem retry_downloads_safe {S} (refresh : S → exn S) (net : transport)
    (start_index : N) (missing : list entry) (s : S) (w : world) :
  (∀ s, ∃ s', refresh s = Ok s') →
  ∃ st,
    retry_downloads refresh net start_index 0 missing
      (RetryState s w 0 0 0) = Ok st
    ∧ (∀ filename, valid_file w filename = true →
         files (retry_disk st) !! filename = files w !! filename)
    ∧ (∀ filename size,
         files (retry_disk st) !! filename = Some size → size ≤ MIN_SIZE →
         files w !! filename = Some size)
    ∧ fetches (retry_disk st) ≤ fetches w + N.of_nat (length missing)
    ∧ retry_downloaded st + retry_failed st ≤ N.of_nat (length missing).
Proof.
  intros Hrefresh.
  destruct (retry_downloads_total refresh net start_index 0 missing
              (RetryState s w 0 0 0) Hrefresh) as [st Hst].
  exists st. split; [done|].
  destruct (retry_downloads_effect refresh net start_index 0 missing _ _ Hst)
    as (Hkeep & Hsmall & Hfetch & Hcount). simpl in *.
  split_and!; [done | done | done | lia].
Qed.

Lemma retry_downloads_safe_witness :
  let missing := [sample_entry; sample_entry] in
  let w := World {[ py "0009_Old.pdf" := 10 ]} 0 in
  (∀ s : (), ∃ s', (λ s, Ok s) s = Ok s')
  ∧ ∃ st,
      retry_downloads (λ s, Ok s) (net_script [Replied 200 5000; Replied 200 7])
        3 0 missing (RetryState () w 0 0 0) = Ok st
      ∧ fetches (retry_disk st) ≤ fetches w + N.of_nat (length missing)
      ∧ retry_downloaded st + retry_failed st ≤ N.of_nat (length missing).
Proof.
  intros missing w.
  assert (∀ s : (), ∃ s', (λ s, Ok s) s = Ok s') as Hrefresh
    by (intros s; by exists s).
  split; [exact Hrefresh|].
  destruct (retry_downloads_safe (λ s : (), Ok s)
              (net_script [Replied 200 5000; Replied 200 7]) 3 missing () w
              Hrefresh) as (st & Hst & _ & _ & Hf & Hc).
  exists st. split_and!; [exact Hst | exact Hf | exact Hc].
Defined.

Example retry_downloads_run :
  retry_downloads (λ s : (), Ok s)
    (net_script [Replied 200 5000; Replied 200 7]) 3 0
    [sample_entry; sample_entry]
    (RetryState () (World {[ py "0009_Old.pdf" := 10 ]} 0) 0 0 0)
  = Ok (RetryState ()
          (World {[ py "0009_Old.pdf" := 10; py "0003_Doc.pdf" := 5000 ]} 2)
          1 1 0).
Proof. vm_compute. reflexivity. Qed.

(** ** The filter loop: what counts as new *)

Lemma filter_new_records_all (entries : list entry) (st : run_state)
    (e : entry) :
  e ∈ entries → dedupe_key e ∈ seen_titles (filter_new st entries).1.
Proof.
  revert st. induction entries as [|e0 rest IH]; intros st He;
    [by apply elem_of_nil in He|]. simpl.
  pose proof (observe_records st e0) as H0.
  destruct (observe st e0) as [st1 fresh]. simpl in H0.
  apply elem_of_cons in He as [->|He].
  - pose proof (filter_new_seen_mono rest st1 _ H0) as H1.
    by destruct (filter_new st1 rest).
  - specialize (IH st1 He). by destruct (filter_new st1 rest).
Qed.

Lemma filter_new_nothing (entries : list entry) (st : run_state) :
  (∀ e, e ∈ entries → dedupe_key e ∈ seen_titles st) →
  filter_new st entries = (st, []).
Proof.
  induction entries as [|e rest IH]; intros Hseen; simpl; [done|].
  unfold observe. rewrite decide_True by (apply Hseen; apply list_elem_of_here).
  rewrite IH; [done|]. intros e' He'. apply Hseen. by apply list_elem_of_further.
Qed.

Lemma filter_new_fresh (entries : list entry) (st : run_state) :
  let new_entries := (filter_new st entries).2 in
  new_entries `sublist_of` entries
  ∧ NoDup (dedupe_key <$> new_entries)
  ∧ ∀ e, e ∈ new_entries → dedupe_key e ∉ seen_titles st.
Proof.
  revert st. induction entries as [|e rest IH]; intros st; simpl.
  - split_and!; [done | constructor |]. intros e He. by apply elem_of_nil in He.
  - unfold observe. case_decide as Hk; simpl.
    + specialize (IH st). destruct (filter_new st rest) as [st2 ne].
      simpl in *. destruct IH as (Hs & Hn & Hf).
      split_and!; [by apply sublist_cons | done | done].
    + set (st1 := RunState (all_entries st ++ [e])
                    ({[dedupe_key e]} ∪ seen_titles st)).
      specialize (IH st1). destruct (filter_new st1 rest) as [st2 ne].
      simpl in *. destruct IH as (Hs & Hn & Hf).
      split_and!; [by apply sublist_skip | |].
      * constructor; [|done]. intros Hin.
        apply list_elem_of_fmap in Hin as (e' & Heq & He').
        apply (Hf e' He'). unfold st1. simpl. set_solver.
      * intros e' He'. apply elem_of_cons in He' as [->|He']; [done|].
        intros Hin. apply (Hf e' He'). unfold st1. simpl. set_solver.
Qed.

(** The new entries of a page are taken from its entries in order, have
    pairwise different keys, and none of their keys was seen before.
    Scraping the same page again, as happens when the table does not
    move, adds nothing and queues nothing for download. *)
Theorem rescrape_adds_nothing (entries : list entry) (st : run_state) :
  let '(st', new_entries) := filter_new st entries in
  new_entries `sublist_of` entries
  ∧ NoDup (dedupe_key <$> new_entries)
  ∧ (∀ e, e ∈ new_entries → dedupe_key e ∉ seen_titles st)
  ∧ filter_new st' entries = (st', []).
Proof.
  pose proof (filter_new_fresh entries st) as Hfresh.
  pose proof (λ e, filter_new_records_all entries st e) as Hrec.
  destruct (filter_new st entries) as [st' new_entries]. simpl in *.
  destruct Hfresh as (Hs & Hn & Hf).
  split_and!; [done..|]. by apply filter_new_nothing.
Qed.

(** ** Field extractor: the cells of a row *)

Lemma one_of_cases (text : str) (options : list str) :
  one_of text options = true → text ∈ options.
Proof.
  unfold one_of. rewrite existsb_exists. intros (x & Hx & Heq).
  unfold str_eqb in Heq. apply bool_decide_eq_true in Heq as ->.
  by apply list_elem_of_In.
Qed.

Lemma date_match_not_word `{Unicode} (text : str) :
  is_status text = true ∨ is_comment text = true → date_match text = false.
Proof.
  intros [Hw|Hw]; apply one_of_cases in Hw;
    repeat (apply elem_of_cons in Hw as [->|Hw]);
    try (by apply elem_of_nil in Hw);
    unfold date_match, digits_1_2; simpl;
    repeat match goal with
           | |- context [is_decimal ?c] => destruct (is_decimal c)
           end; done.
Qed.

Lemma status_not_comment (text : str) :
  is_comment text = true → is_status text = false.
Proof.
  intros Hw. apply one_of_cases in Hw.
  repeat (apply elem_of_cons in Hw as [->|Hw]);
    try (by apply elem_of_nil in Hw); reflexivity.
Qed.

Lemma date_match_truthy `{Unicode} (text : str) :
  date_match text = true → truthy text = true.
Proof. by destruct text. Qed.

Lemma word_truthy (text : str) :
  is_status text = true ∨ is_comment text = true → truthy text = true.
Proof. by destruct text; [intros [?|?]|]. Qed.

Lemma classify_cell_fields `{Unicode} (e : entry) (t : str) :
  date (classify_cell e t)
  = (if negb (truthy (date e)) && date_match t then t else date e)
  ∧ status (classify_cell e t)
    = (if negb (truthy (status e)) && is_status t then t else status e)
  ∧ comment (classify_cell e t)
    = (if negb (truthy (comment e)) && is_comment t then t else comment e).
Proof.
  unfold classify_cell. fold (is_status t) (is_comment t).
  destruct (date_match t) eqn:Ed.
  - assert (is_status t = false) as ->.
    { destruct (is_status t) eqn:E; [|done].
      by rewrite date_match_not_word in Ed by by left. }
    assert (is_comment t = false) as ->.
    { destruct (is_comment t) eqn:E; [|done].
      by rewrite date_match_not_word in Ed by by right. }
    rewrite !andb_false_r. simpl. by destruct (truthy (date e)).
  - simpl. rewrite andb_false_r.
    destruct (is_status t) eqn:Es.
    + assert (is_comment t = false) as ->.
      { destruct (is_comment t) eqn:E; [|done].
        by rewrite status_not_comment in Es. }
      rewrite andb_false_r. simpl. by destruct (truthy (status e)).
    + simpl. rewrite andb_false_r.
      destruct (is_comment t) eqn:Ec; simpl;
        [by destruct (truthy (comment e)) | by rewrite andb_false_r].
Qed.

Lemma first_match_fold (get : entry → str) (step : entry → str → entry)
    (p : str → bool) :
  (∀ e t, get (step e t)
          = if negb (truthy (get e)) && p t then t else get e) →
  (∀ t, p t = true → truthy t = true) →
  ∀ texts e,
    get (foldl step e texts)
    = if truthy (get e) then get e else first_match p texts.
Proof.
  intros Hstep Hp texts. induction texts as [|t texts IH]; intros e; simpl.
  - unfold first_match. simpl. by destruct (get e).
  - rewrite IH, Hstep. unfold first_match. simpl.
    destruct (truthy (get e)) eqn:Eg; simpl; [by rewrite Eg|].
    destruct (p t) eqn:Et; [by rewrite (Hp t Et)|]. by rewrite Eg.
Qed.

Lemma scan_cells_pure_fmap `{Unicode} (e : entry) (cells : list str) :
  scan_cells_pure e cells = foldl classify_cell e (strip <$> cells).
Proof.
  unfold scan_cells_pure. revert e.
  induction cells as [|t cells IH]; intros e; simpl; [done|]. apply IH.
Qed.

Lemma scan_links_keeps_cell_fields (links : list (str * str)) (e : entry) :
  date (scan_links_pure e links) = date e
  ∧ status (scan_links_pure e links) = status e
  ∧ comment (scan_links_pure e links) = comment e.
Proof.
  revert e. unfold scan_links_pure.
  induction links as [|l links IH]; intros e; simpl; [done|].
  destruct (IH (classify_link e l.1 (strip l.2))) as (-> & -> & ->).
  unfold classify_link.
  repeat match goal with
         | |- context [if ?b then _ else _] => destruct b
         end; done.
Qed.

(** The date, the status and the comment of an entry are first matches
    over the cells of its row in order: the first cell whose stripped
    text begins like a date, the first that reads Final or Draft, the
    first that reads Yes or No; a field without such a cell is empty. *)
Theorem cell_fields_first_match `{Unicode} (cells : list str)
    (links : list (str * str)) (e : entry) :
  (2 ≤ length cells)%nat →
  extract_row (readable_row cells links) = Ok (Some e) →
  date e = first_match date_match (strip <$> cells)
  ∧ status e = first_match is_status (strip <$> cells)
  ∧ comment e = first_match is_comment (strip <$> cells).
Proof.
  intros Hlen. rewrite extract_row_readable by done. simpl.
  set (e1 := scan_links_pure blank_entry links).
  set (e2 := if negb (truthy (title e1))
             then set_title (first_line (strip (default [] (cells !! 1%nat)))) e1
             else e1).
  destruct (truthy (title (scan_cells_pure e2 cells))); [|done].
  intros [= <-]. rewrite scan_cells_pure_fmap.
  assert (date e2 = [] ∧ status e2 = [] ∧ comment e2 = []) as (Hd & Hs & Hc).
  { destruct (scan_links_keeps_cell_fields links blank_entry)
      as (Hd & Hs & Hc). fold e1 in Hd, Hs, Hc.
    unfold e2. by destruct (negb (truthy (title e1))). }
  split_and!.
  - rewrite (first_match_fold date classify_cell date_match).
    + by rewrite Hd.
    + intros e0 t. apply classify_cell_fields.
    + apply date_match_truthy.
  - rewrite (first_match_fold status classify_cell is_status).
    + by rewrite Hs.
    + intros e0 t. apply classify_cell_fields.
    + intros t Ht. apply word_truthy. by left.
  - rewrite (first_match_fold comment classify_cell is_comment).
    + by rewrite Hc.
    + intros e0 t. apply classify_cell_fields.
    + intros t Ht. apply word_truthy. by right.
Qed.

Lemma cell_fields_first_match_witness :
  let cells := [py " 12 "; py "Doc"; py "Draft"; py " 3/14/2022 ";
                py "Final"; py "No"; py "1/1/2001"] in
  let e := Entry (py "Doc") [] [] (py "3/14/2022") [] [] (py "Draft")
             (py "No") in
  (2 ≤ length cells)%nat
  ∧ extract_row (H := ascii_unicode) (readable_row cells []) = Ok (Some e)
  ∧ date e = first_match (date_match (H := ascii_unicode)) (strip <$> cells)
  ∧ status e = first_match is_status (strip <$> cells).
Proof.
  intros cells e.
  assert (2 ≤ length cells)%nat as Hlen by (simpl; lia).
  assert (extract_row (H := ascii_unicode) (readable_row cells [])
          = Ok (Some e)) as Hrow by (vm_compute; reflexivity).
  destruct (cell_fields_first_match (H := ascii_unicode) cells [] e Hlen Hrow)
    as (Hd & Hs & _).
  split_and!; [exact Hlen | exact Hrow | exact Hd | exact Hs].
Defined.

Lemma scan_links_detail_none (links : list (str * str)) (e : entry) :
  Forall (λ l, title_candidate l = false) links →
  title e = [] →
  detail_url (scan_links_pure e links) = detail_url e.
Proof.
  intros H. revert e. induction H as [|[h t] links Hh _ IH]; intros e He;
    [done|].
  unfold scan_links_pure in *. simpl.
  assert (title (classify_link e h (strip t)) = []
          ∧ detail_url (classify_link e h (strip t)) = detail_url e)
    as [Ht Hd].
  { unfold title_candidate in Hh. simpl in Hh. unfold classify_link.
    rewrite He. simpl.
    destruct (is_download_href h); [done|]. simpl in Hh.
    destruct (is_detail_href h); simpl in Hh; [by rewrite Hh|].
    destruct (contains (py "fda.gov") h); simpl in Hh; [by rewrite Hh | done]. }
  by rewrite IH.
Qed.

(** When no link of a row can give the title, the title is the first line
    of the stripped text of the second cell and there is no detail URL;
    if that line is empty, the row gives no entry. *)
Theorem title_fallback_second_cell `{Unicode} (cells : list str)
    (links : list (str * str)) (second : str) :
  cells !! 1%nat = Some second →
  Forall (λ l, title_candidate l = false) links →
  let fallback := first_line (strip second) in
  ∃ o, extract_row (readable_row cells links) = Ok o
    ∧ (fallback = [] → o = None)
    ∧ (fallback ≠ [] →
       ∃ e, o = Some e ∧ title e = fallback ∧ detail_url e = []).
Proof.
  intros Hsecond Hlinks fallback.
  assert (2 ≤ length cells)%nat as Hlen.
  { apply lookup_lt_Some in Hsecond. lia. }
  rewrite extract_row_readable by done. simpl.
  set (e1 := scan_links_pure blank_entry links).
  assert (title e1 = []) as Ht1 by by apply scan_links_title_none.
  assert (detail_url e1 = []) as Hu1
    by by apply (scan_links_detail_none links blank_entry).
  rewrite Ht1, Hsecond. simpl. fold fallback.
  destruct (scan_cells_keeps cells (set_title fallback e1)) as (Ht & Hu & _).
  rewrite Ht. simpl. eexists. split; [reflexivity|]. split.
  - by intros ->.
  - intros Hne. destruct fallback as [|c f] eqn:Ef; [done|]. simpl.
    eexists. split; [reflexivity|]. by rewrite Ht, Hu.
Qed.

Lemma title_fallback_second_cell_witness :
  let cells := [py "7"; py "  Plain title" ++ 10 :: py "second line";
                py "Final"] in
  let links := [(py "https://www.fda.gov/media/5/download", py "PDF")] in
  cells !! 1%nat = Some (py "  Plain title" ++ 10 :: py "second line")
  ∧ Forall (λ l, title_candidate l = false) links
  ∧ ∃ o, extract_row (H := ascii_unicode) (readable_row cells links) = Ok o
      ∧ ∃ e, o = Some e ∧ title e = py "Plain title" ∧ detail_url e = [].
Proof.
  intros cells links.
  assert (cells !! 1%nat = Some (py "  Plain title" ++ 10 :: py "second line"))
    as Hsecond by reflexivity.
  assert (Forall (λ l, title_candidate l = false) links) as Hlinks
    by (repeat constructor).
  destruct (title_fallback_second_cell (H := ascii_unicode) cells links _
              Hsecond Hlinks) as (o & Ho & _ & Hsome).
  split_and!; [exact Hsecond | exact Hlinks |].
  exists o. split; [exact Ho|]. apply Hsome. vm_compute. discriminate.
Defined.

(** ** A batch that is run again *)

Lemma run_tasks_phase (net : transport) (tasks : list (N * entry))
    (w : world) :
  (run_tasks (session_worker net) tasks w).1 = (download_phase net tasks w).1
  ∧ fut_outcome <$> (run_tasks (session_worker net) tasks w).2
    = Ok <$> (download_phase net tasks w).2.
Proof.
  revert w. induction tasks as [|[idx e] rest IH]; intros w; simpl; [done|].
  unfold session_worker at 1 3.
  destruct (download_file_with_session net e idx w) as [w1 r].
  destruct (IH w1) as [H1 H2].
  destruct (run_tasks (session_worker net) rest w1) as [w2 fs].
  destruct (download_phase net rest w1) as [w2' rs]. simpl in *.
  split; [done|]. f_equal. exact H2.
Qed.

Lemma charged_none (c : counter) (futures : list future) :
  charged c futures = 0 → Forall (λ f, verdict f ≠ c) futures.
Proof.
  induction futures as [|f fs IH]; [constructor|].
  rewrite charged_cons. case_decide as Hv; [lia|].
  intros H0. constructor; [done|]. apply IH. lia.
Qed.

Lemma charged_all (c : counter) (futures : list future) :
  Forall (λ f, verdict f = c) futures →
  charged c futures = N.of_nat (length futures)
  ∧ ∀ c', c' ≠ c → charged c' futures = 0.
Proof.
  induction 1 as [|f fs Hf _ [IH1 IH2]]; [done|].
  split.
  - rewrite charged_cons, decide_True by done. simpl length. lia.
  - intros c' Hc'. rewrite charged_cons, decide_False by congruence.
    rewrite (IH2 c' Hc'). lia.
Qed.

Lemma batch_tasks_have_url (start_index i : N) (entries : list entry) :
  Forall (λ t, truthy (download_url t.2) = true)
         (batch_tasks start_index i entries).
Proof.
  revert i. induction entries as [|e rest IH]; intros i; simpl; [constructor|].
  destruct (truthy (download_url e)) eqn:E; [|apply IH].
  constructor; [done | apply IH].
Qed.

(** A batch that ended without a failure, run again over the directory
    it left, makes no request and changes nothing: every entry is counted
    as skipped. *)
Theorem batch_rerun_skips_all (net1 net2 : transport)
    (completed1 completed2 : completion) (entries : list entry)
    (start_index : N) (w0 : world) :
  (∀ futures, completed1 futures ≡ₚ futures) →
  (∀ futures, completed2 futures ≡ₚ futures) →
  let run1 := download_batch_parallel (session_worker net1) completed1
                entries start_index w0 in
  failed run1.2 = 0 →
  download_batch_parallel (session_worker net2) completed2 entries
    start_index run1.1
  = (run1.1, Results 0 (N.of_nat (length entries)) 0).
Proof.
  intros Hp1 Hp2 run1. unfold run1, download_batch_parallel.
  set (tasks := batch_tasks start_index 0 entries).
  pose proof (submit_all_tasks (session_worker net1) start_index 0 entries w0)
    as Hs1.
  pose proof (submit_all_counts (session_worker net1) start_index 0 entries w0)
    as Hc1.
  destruct (submit_all (session_worker net1) start_index 0 entries w0)
    as [[w1 fs1] n1]. simpl in Hs1. destruct Hc1 as [Hn1 Hlen1]. simpl.
  destruct (account_fold (completed1 fs1) (Results 0 n1 0)) as (_ & _ & Hf).
  simpl in Hf. rewrite Hf, (charged_perm _ _ _ (Hp1 fs1)). intros Hfail.
  (* every task of the first run succeeded *)
  destruct (run_tasks_phase net1 tasks w0) as [Hw1 Ho1].
  fold tasks in Hs1. rewrite <- Hs1 in Hw1, Ho1. simpl in Hw1, Ho1.
  assert (Forall (λ r : result, r.1 = true) (download_phase net1 tasks w0).2)
    as Hall.
  { apply charged_none in Hfail. apply Forall_forall. intros r Hr.
    assert (Ok r ∈ fut_outcome <$> fs1) as Hin
      by (rewrite Ho1; by apply list_elem_of_fmap_2).
    apply list_elem_of_fmap in Hin as (f & Heq & Hfin).
    rewrite Forall_forall in Hfail. specialize (Hfail f Hfin).
    unfold verdict in Hfail. rewrite <- Heq in Hfail.
    by destruct r as [[] m]. }
  (* so every target file is there *)
  assert (Forall (λ t, truthy (download_url t.2) = true
                       ∧ valid_file w1 (target_filename t.1 (title t.2)) = true)
            tasks) as Hvalid.
  { apply Forall_lookup. intros i [idx e] Ht.
    assert (i < length (download_phase net1 tasks w0).2)%nat as Hi.
    { rewrite phase_length. by eapply lookup_lt_Some. }
    apply lookup_lt_is_Some in Hi as [r Hr].
    assert (r.1 = true) as Hsucc by by eapply (Forall_lookup_1 _ _ _ _ Hall).
    rewrite Hw1.
    exact (phase_success_valid net1 tasks w0 i idx e r Ht Hr Hsucc). }
  (* the second run *)
  pose proof (submit_all_tasks (session_worker net2) start_index 0 entries w1)
    as Hs2.
  pose proof (submit_all_counts (session_worker net2) start_index 0 entries w1)
    as Hc2.
  destruct (submit_all (session_worker net2) start_index 0 entries w1)
    as [[w2 fs2] n2]. simpl in Hs2. destruct Hc2 as [Hn2 Hlen2]. simpl.
  destruct (run_tasks_phase net2 tasks w1) as [Hw2 Ho2].
  fold tasks in Hs2. rewrite <- Hs2 in Hw2, Ho2. simpl in Hw2, Ho2.
  rewrite (phase_all_exist net2 tasks w1 Hvalid) in Hw2, Ho2.
  simpl in Hw2, Ho2. subst w2.
  assert (Forall (λ f, verdict f = Skipped) fs2) as Hskip.
  { apply Forall_forall. intros f Hfin.
    assert (fut_outcome f ∈ Ok <$> replicate (length tasks) (true, EXISTS))
      as Hin by (rewrite <- Ho2; by apply list_elem_of_fmap_2).
    apply list_elem_of_fmap in Hin as (r & Heq & Hr).
    apply elem_of_replicate in Hr as [-> _].
    unfold verdict. by rewrite Heq. }
  destruct (charged_all Skipped fs2 Hskip) as [Hsk Hother].
  destruct (account_fold (completed2 fs2) (Results 0 n2 0)) as (Hd & Hs & Hf2).
  simpl in Hd, Hs, Hf2.
  rewrite (charged_perm _ _ _ (Hp2 fs2)) in Hd.
  rewrite (charged_perm _ _ _ (Hp2 fs2)) in Hs.
  rewrite (charged_perm _ _ _ (Hp2 fs2)) in Hf2.
  rewrite (Hother Downloaded) in Hd by done.
  rewrite (Hother Failed) in Hf2 by done. rewrite Hsk in Hs.
  f_equal. destruct (foldl account (Results 0 n2 0) (completed2 fs2))
    as [d sk fl]. simpl in *. f_equal; lia.
Qed.

Lemma batch_rerun_skips_all_witness :
  let entries := [sample_entry;
                  Entry (py "No file") [] [] [] [] [] [] []] in
  let run1 := download_batch_parallel (session_worker
                (net_script [Replied 500 0; Replied 200 4096]))
                reverse entries 1 (World ∅ 0) in
  (∀ futures : list future, reverse futures ≡ₚ futures)
  ∧ failed run1.2 = 0
  ∧ download_batch_parallel (session_worker (net_status 404)) reverse entries
      1 run1.1
    = (run1.1, Results 0 2 0).
Proof.
  intros entries run1.
  assert (∀ futures : list future, reverse futures ≡ₚ futures) as Hperm
    by (intros futures; apply reverse_Permutation).
  assert (failed run1.2 = 0) as Hfail by reflexivity.
  split_and!; [exact Hperm | exact Hfail |].
  exact (batch_rerun_skips_all
           (net_script [Replied 500 0; Replied 200 4096]) (net_status 404)
           reverse reverse entries 1 (World ∅ 0) Hperm Hperm Hfail).
Defined.
